(** * Evaluation and model selection of [workflow/stage2_kg_pretrain.py]

    A shallow embedding of the functions of the pretraining workflow,
    [test] (ranking aggregation across workers and the metric engine),
    [train_and_validate] (mini-batch loop and loss, block-wise checkpointing
    and best-checkpoint selection) and [main], followed by the properties
    proved of them.

    Conventions of the embedding.
    - A [torch.long] tensor is a [list Z]; arithmetic on its entries wraps
      around at 64 bits ([wrap64]).
    - A floating-point scalar is a [tfloat]: an exact rational, a signed
      infinity or NaN.  Division by zero, [0/0], [0 * inf] and [inf - inf]
      behave as in IEEE 754; rounding, overflow to infinity and signed
      zeros are not modelled (finite arithmetic is exact).  Where Python
      raises [OverflowError] on an integer too large for a float, the
      exception is modelled.
    - Python exceptions are values of [pyerr]; fallible code lives in the
      error monad [result].
    - The metric dictionary is a [gmap string tfloat]. *)

From Stdlib Require Import ZArith QArith Qcanon Reals Qreals Lra Lia String Ascii.
From Stdlib Require Import DecimalString DecimalFacts DecimalNat.
From stdpp Require Import base list gmap strings.

Open Scope Z_scope.

(** ** Exceptions and the error monad *)

Inductive pyerr : Type :=
  | ValueError (msg : string)
  | UnboundLocalError (var : string)
  | AttributeError (msg : string)
  | IndexError (msg : string)
  | RuntimeError (msg : string)
  | ZeroDivisionError (msg : string)
  | OverflowError (msg : string)
  | FileNotFoundError (msg : string).

Inductive result (A : Type) : Type :=
  | Ok (a : A)
  | Err (e : pyerr).
Arguments Ok {A} a.
Arguments Err {A} e.

Definition rbind {A B : Type} (m : result A) (k : A → result B) : result B :=
  match m with
  | Ok a => k a
  | Err e => Err e
  end.

Notation "'let?' x := m 'in' k" := (rbind m (fun x => k))
  (at level 10, x pattern, m at level 100, k at level 200).

(** ** 64-bit integers ([torch.long]) *)

Definition wrap64 (z : Z) : Z := (z + 2 ^ 63) mod 2 ^ 64 - 2 ^ 63.
Definition sub64 (a b : Z) : Z := wrap64 (a - b).
Definition in_i64 (z : Z) : Prop := - 2 ^ 63 ≤ z < 2 ^ 63.

(** ** Floating-point scalars *)

Inductive tfloat : Type :=
  | Fin (q : Qc)
  | Inf (neg : bool)
  | NaN.

Definition Qc_of_Z (z : Z) : Qc := Q2Qc (inject_Z z).

(** [tensor.float()] on one entry. *)
Definition to_float (z : Z) : tfloat := Fin (Qc_of_Z z).

Definition Qc_is_zero (q : Qc) : bool := bool_decide (q = Q2Qc 0).
Definition Qc_is_neg (q : Qc) : bool := bool_decide (q < Q2Qc 0)%Qc.

Definition tf_neg (a : tfloat) : tfloat :=
  match a with
  | Fin q => Fin (- q)%Qc
  | Inf s => Inf (negb s)
  | NaN => NaN
  end.

Definition tf_add (a b : tfloat) : tfloat :=
  match a, b with
  | NaN, _ | _, NaN => NaN
  | Fin x, Fin y => Fin (x + y)%Qc
  | Fin _, Inf s | Inf s, Fin _ => Inf s
  | Inf s, Inf t => if Bool.eqb s t then Inf s else NaN
  end.

Definition tf_sub (a b : tfloat) : tfloat := tf_add a (tf_neg b).

Definition tf_mul (a b : tfloat) : tfloat :=
  match a, b with
  | NaN, _ | _, NaN => NaN
  | Fin x, Fin y => Fin (x * y)%Qc
  | Fin x, Inf s | Inf s, Fin x =>
      if Qc_is_zero x then NaN else Inf (xorb s (Qc_is_neg x))
  | Inf s, Inf t => Inf (xorb s t)
  end.

Definition tf_div (a b : tfloat) : tfloat :=
  match a, b with
  | NaN, _ | _, NaN => NaN
  | Fin x, Fin y =>
      if Qc_is_zero y
      then (if Qc_is_zero x then NaN else Inf (Qc_is_neg x))
      else Fin (x / y)%Qc
  | Fin _, Inf _ => Fin (Q2Qc 0)
  | Inf s, Fin y => Inf (xorb s (Qc_is_neg y))
  | Inf _, Inf _ => NaN
  end.

(** [x ** n] for an integer exponent [n >= 0]; [x ** 0 = 1] for every [x],
    NaN included. *)
Fixpoint tf_pow (a : tfloat) (n : nat) : tfloat :=
  match n with
  | O => Fin (Q2Qc 1)
  | S n' => tf_mul a (tf_pow a n')
  end.

(** [a > b] on floats: false as soon as one side is NaN. *)
Definition tf_gt (a b : tfloat) : bool :=
  match a, b with
  | NaN, _ | _, NaN => false
  | Fin x, Fin y => bool_decide (y < x)%Qc
  | Fin _, Inf s => s
  | Inf s, Fin _ => negb s
  | Inf s, Inf t => negb s && t
  end.

Definition tf_sum (l : list tfloat) : tfloat := foldl tf_add (Fin (Q2Qc 0)) l.

(** [tensor.mean()] of a one-dimensional float tensor; NaN when empty. *)
Definition tf_mean (l : list tfloat) : tfloat :=
  tf_div (tf_sum l) (to_float (Z.of_nat (length l))).

(** ** Strings: the fragment of [str] used on metric names *)

Open Scope string_scope.

(** [pat in s] *)
Fixpoint contains (pat s : string) : bool :=
  String.prefix pat s ||
  match s with
  | EmptyString => false
  | String _ s' => contains pat s'
  end.

(** [s.split(sep)] for a one-character separator. *)
Fixpoint split_on (sep : ascii) (s : string) : list string :=
  match s with
  | EmptyString => [EmptyString]
  | String c s' =>
      if Ascii.eqb c sep then EmptyString :: split_on sep s'
      else match split_on sep s' with
           | [] => [String c EmptyString]
           | w :: ws => String c w :: ws
           end
  end.

(** [s[n:]] *)
Fixpoint string_drop (n : nat) (s : string) : string :=
  match n, s with
  | O, _ => s
  | S n', String _ s' => string_drop n' s'
  | S _, EmptyString => EmptyString
  end.

Definition is_space (c : ascii) : bool :=
  let n := nat_of_ascii c in
  ((9 <=? n) && (n <=? 13) || (28 <=? n) && (n <=? 32))%nat.

Definition digit_of (c : ascii) : option Z :=
  let n := nat_of_ascii c in
  if ((48 <=? n) && (n <=? 57))%nat then Some (Z.of_nat n - 48) else None.

Fixpoint lstrip (s : string) : string :=
  match s with
  | String c s' => if is_space c then lstrip s' else s
  | EmptyString => EmptyString
  end.

Fixpoint rstrip (s : string) : string :=
  match s with
  | EmptyString => EmptyString
  | String c s' =>
      match rstrip s' with
      | EmptyString => if is_space c then EmptyString else String c EmptyString
      | r => String c r
      end
  end.

Fixpoint parse_digits (s : string) (acc : Z) : option Z :=
  match s with
  | EmptyString => Some acc
  | String c s' =>
      match digit_of c with
      | Some d => parse_digits s' (10 * acc + d)
      | None => None
      end
  end.

Definition parse_unsigned (s : string) : option Z :=
  match s with
  | EmptyString => None
  | _ => parse_digits s 0
  end.

(** [int(s)] on an ASCII string: surrounding whitespace, an optional sign,
    then decimal digits.  (Digit-group underscores cannot occur: every
    argument below is a component of a [split("_")].) *)
Definition py_int (s : string) : result Z :=
  let body := rstrip (lstrip s) in
  let parsed :=
    match body with
    | String "+" r => parse_unsigned r
    | String "-" r => Z.opp <$> parse_unsigned r
    | _ => parse_unsigned body
    end in
  match parsed with
  | Some z => Ok z
  | None => Err (ValueError "invalid literal for int() with base 10")
  end.

(** Decimal rendering of a natural number, as in a metric name. *)
Definition dec (n : nat) : string := NilEmpty.string_of_uint (Nat.to_uint n).

(** ** Integer helpers of the standard library *)

Open Scope Z_scope.
Open Scope list_scope.

(** [n!] *)
Fixpoint zfact (n : nat) : Z :=
  match n with
  | O => 1
  | S n' => Z.of_nat n * zfact n'
  end.

(** [math.factorial] *)
Definition py_factorial (n : Z) : result Z :=
  if n <? 0 then Err (ValueError "factorial() not defined for negative values")
  else Ok (zfact (Z.to_nat n)).

(** The least magnitude that has no finite value as a Python float: from
    here on the nearest binary64 number is infinity. *)
Definition float_overflow : Z := 2 ^ 1024 - 2 ^ 970.

(** [a / b] on two Python integers: a float. *)
Definition int_truediv (a b : Z) : result Qc :=
  if b =? 0 then Err (ZeroDivisionError "division by zero")
  else if float_overflow * Z.abs b <=? Z.abs a
       then Err (OverflowError "integer division result too large for a float")
       else Ok (Qc_of_Z a / Qc_of_Z b)%Qc.

(** [x / b] for a Python float [x] and an integer [b]: [b] is converted to
    a float first. *)
Definition float_div_int (x : Qc) (b : Z) : result Qc :=
  if float_overflow <=? Z.abs b
  then Err (OverflowError "int too large to convert to float")
  else if b =? 0 then Err (ZeroDivisionError "float division by zero")
       else Ok (x / Qc_of_Z b)%Qc.

(** [range(stop)] *)
Definition py_range (stop : Z) : list Z := Z.of_nat <$> seq 0 (Z.to_nat stop).

(** [range(start, stop, step)]; a zero step is a [ValueError]. *)
Definition py_range3 (start stop step : Z) : result (list Z) :=
  if step =? 0 then Err (ValueError "range() arg 3 must not be zero")
  else
    let count :=
      if 0 <? step then (stop - start + step - 1) / step
      else (start - stop - step - 1) / (- step) in
    Ok ((λ k, start + Z.of_nat k * step) <$> seq 0 (Z.to_nat count)).

(** ** Long tensors *)










Fixpoint sequence_result {A : Type} (l : list (result A)) : result (list A) :=
  match l with
  | [] => Ok []
  | r :: l' => let? a := r in let? l'' := sequence_result l' in Ok (a :: l'')
  end.

(** ** Cross-worker aggregation (lines 200-233 of [test]) *)









Record aggregates : Type := {
  all_ranking : list Z;
  all_num_negative : list Z;
  all_ranking_t : list Z;
  all_num_negative_t : list Z;
}.


(** ** Metric engine (lines 235-280 of [test]) *)

(** Element-wise [float_tensor / long_tensor] with the broadcasting of
    one-element tensors. *)
Definition tdiv (a : list tfloat) (b : list Z) : result (list tfloat) :=
  if decide (length a = length b) then Ok (zip_with (λ x y, tf_div x (to_float y)) a b)
  else match a, b with
       | [x], _ => Ok ((λ y, tf_div x (to_float y)) <$> b)
       | _, [y] => Ok ((λ x, tf_div x (to_float y)) <$> a)
       | _, _ => Err (RuntimeError "size mismatch")
       end.

(** [factorial(n - 1) / factorial(i) / factorial(n - i - 1)] *)
Definition num_comb (num_sample i : Z) : result Qc :=
  let? f1 := py_factorial (num_sample - 1) in
  let? f2 := py_factorial i in
  let? q := int_truediv f1 f2 in
  let? f3 := py_factorial (num_sample - i - 1) in
  float_div_int q f3.

(** The summand of the unbiased estimator for one entry of [fp_rate]. *)
Definition hits_term (c : Qc) (num_sample i : Z) (p : tfloat) : tfloat :=
  tf_mul (tf_mul (Fin c) (tf_pow p (Z.to_nat i)))
         (tf_pow (tf_sub (Fin (Q2Qc 1)) p) (Z.to_nat (num_sample - i - 1))).

(** The loop [for i in range(threshold)].  The variable [score] starts as
    the integer [0] ([None]) and is a tensor from the first pass on. *)
Fixpoint hits_loop (num_sample : Z) (fp_rate : list tfloat) (idxs : list Z)
    (score : option (list tfloat)) : result (option (list tfloat)) :=
  match idxs with
  | [] => Ok score
  | i :: idxs' =>
      let? c := num_comb num_sample i in
      let term := hits_term c num_sample i <$> fp_rate in
      let score' :=
        match score with
        | None => tf_add (Fin (Q2Qc 0)) <$> term
        | Some sc => zip_with tf_add sc term
        end in
      hits_loop num_sample fp_rate idxs' (Some score')
  end.

(** Line 259: [(_ranking - 1).float() / _num_neg]. *)
Definition fp_rate_of (_ranking _num_neg : list Z) : result (list tfloat) :=
  tdiv ((λ r, to_float (sub64 r 1)) <$> _ranking) _num_neg.

Definition unbiased_hits (threshold num_sample : Z) (_ranking _num_neg : list Z)
  : result tfloat :=
  let? fp_rate := fp_rate_of _ranking _num_neg in
  let? score := hits_loop num_sample fp_rate (py_range threshold) None in
  match score with
  | Some sc => Ok (tf_mean sc)
  | None => Err (AttributeError "'int' object has no attribute 'mean'")
  end.

Definition mr_score (_ranking : list Z) : tfloat := tf_mean (to_float <$> _ranking).

Definition mrr_score (_ranking : list Z) : tfloat :=
  tf_mean ((λ r, tf_div (Fin (Q2Qc 1)) (to_float r)) <$> _ranking).

(** A Python integer compared with the entries of a long tensor becomes a
    64-bit scalar first. *)
Definition long_scalar (z : Z) : result Z :=
  if (- 2 ^ 63 <=? z) && (z <? 2 ^ 63) then Ok z
  else Err (RuntimeError "Overflow when unpacking long").

Definition exact_hits (threshold : Z) (_ranking : list Z) : tfloat :=
  tf_mean ((λ r, if r <=? threshold then Fin (Q2Qc 1) else Fin (Q2Qc 0)) <$> _ranking).

(** Lines 238-247: the aggregates a metric name is scored on. *)
Definition route (ag : aggregates) (metric : string)
  : result (list Z * list Z * string) :=
  if contains "-tail" metric then
    match split_on "-" metric with
    | [_metric_name; direction] =>
        if String.eqb direction "tail"
        then Ok (all_ranking_t ag, all_num_negative_t ag, _metric_name)
        else Err (ValueError "Only tail metric is supported in this mode")
    | _ => Err (ValueError "too many values to unpack (expected 2)")
    end
  else Ok (all_ranking ag, all_num_negative ag, metric).

(** Lines 249-275.  [prev] is the value the variable [score] has when the
    pass begins ([None]: not yet bound); a name that matches no branch
    leaves it as it is. *)
Definition score_of (prev : option tfloat) (_metric_name : string)
    (_ranking _num_neg : list Z) : result (option tfloat) :=
  if String.eqb _metric_name "mr" then Ok (Some (mr_score _ranking))
  else if String.eqb _metric_name "mrr" then Ok (Some (mrr_score _ranking))
  else if String.prefix "hits@" _metric_name then
    let values := split_on "_" (string_drop 5 _metric_name) in
    let? threshold := py_int (default EmptyString (values !! 0%nat)) in
    if decide (1 < length values)%nat then
      let? num_sample := py_int (default EmptyString (values !! 1%nat)) in
      let? score := unbiased_hits threshold num_sample _ranking _num_neg in
      Ok (Some score)
    else
      let? scalar := long_scalar threshold in
      Ok (Some (exact_hits scalar _ranking))
  else Ok prev.

(** One pass of the loop over [cfg.task.metric]: the new value of [score]. *)
Definition metric_pass (ag : aggregates) (prev : option tfloat) (metric : string)
  : result tfloat :=
  let? routed := route ag metric in
  let '(_ranking, _num_neg, _metric_name) := routed in
  let? score := score_of prev _metric_name _ranking _num_neg in
  match score with
  | Some s => Ok s
  | None => Err (UnboundLocalError "score")
  end.

(** State of the metric loop: the dictionary, the variable [score] and the
    lines handed to the logger. *)
Record metric_state : Type := {
  metrics : gmap string tfloat;
  score_var : option tfloat;
  reported : list (string * tfloat);
}.

Definition metric_init : metric_state :=
  {| metrics := ∅; score_var := None; reported := [] |}.

Fixpoint metric_loop (ag : aggregates) (names : list string) (st : metric_state)
  : result metric_state :=
  match names with
  | [] => Ok st
  | metric :: names' =>
      let? score := metric_pass ag (score_var st) metric in
      metric_loop ag names'
        {| metrics := <[metric := score]> (metrics st);
           score_var := Some score;
           reported := reported st ++ [(metric, score)] |}
  end.




(** ** Training loop ([train_and_validate], lines 69-149) *)

(** [math.ceil(n / 10)] *)
Definition ceil_div10 (n : Z) : Z := - (- n / 10).

(** [range(start, stop)] *)
Definition py_range2 (start stop : Z) : list Z :=
  (λ k, start + Z.of_nat k) <$> seq 0 (Z.to_nat (stop - start)).

Fixpoint foldM {A S : Type} (f : S → A → result S) (l : list A) (s : S) : result S :=
  match l with
  | [] => Ok s
  | a :: l' => let? s' := f s a in foldM f l' s'
  end.

(** The loop as the coordinating worker (rank 0) runs it.  The model is
    known by its parameter state.  [train_batches m epoch] stands for the
    mini-batch updates of one epoch (lines 81-119): the state they leave and
    the number of losses they collect.  [evaluate m] is the call
    [test(cfg, model, ...)] of line 138.  The output directory maps the epoch
    number in a checkpoint's file name to the state saved under it. *)
Section TrainLoop.
Context {model_state : Type}.
Variable train_batches : model_state → Z → model_state * nat.
Variable evaluate : model_state → result tfloat.
Variable num_epoch : Z.

Record loop_state : Type := {
  model : model_state;
  output_dir : gmap Z model_state;
  best_result : tfloat;
  best_epoch : Z;
}.

(** One epoch, lines 77-126; the average loss of line 122 divides by the
    number of losses. *)
Definition train_epoch (m : model_state) (epoch : Z) : result model_state :=
  let trained := train_batches m epoch in
  if (trained.2 =? 0)%nat then Err (ZeroDivisionError "division by zero")
  else Ok trained.1.

(** One pass of the outer loop, lines 75-141. *)
Definition block (step : Z) (st : loop_state) (i : Z) : result loop_state :=
  let? m := foldM train_epoch (py_range2 i (Z.min num_epoch (i + step))) (model st) in
  let epoch := Z.min num_epoch (i + step) in
  let dir := <[epoch := m]> (output_dir st) in
  let? result := evaluate m in
  if tf_gt result (best_result st)
  then Ok {| model := m; output_dir := dir; best_result := result; best_epoch := epoch |}
  else Ok {| model := m; output_dir := dir;
             best_result := best_result st; best_epoch := best_epoch st |}.

Definition loop_init (m : model_state) (dir : gmap Z model_state) : loop_state :=
  {| model := m; output_dir := dir; best_result := Inf true; best_epoch := -1 |}.

Definition train_and_validate (m0 : model_state) (dir0 : gmap Z model_state)
  : result (model_state * gmap Z model_state) :=
  if num_epoch =? 0 then Ok (m0, dir0)
  else
    let step := ceil_div10 num_epoch in
    let? blocks := py_range3 0 num_epoch step in
    let? st := foldM (block step) blocks (loop_init m0 dir0) in
    match output_dir st !! best_epoch st with
    | Some saved => Ok (saved, output_dir st)
    | None => Err (FileNotFoundError "model_epoch_%d.pth")
    end.

(** The checkpoints of a run, in the order they are written: the epoch
    each is named by and the state it holds. *)
Fixpoint checkpoints (step : Z) (m : model_state) (blocks : list Z)
  : list (Z * model_state) :=
  match blocks with
  | [] => []
  | i :: blocks' =>
      let m' := foldl (λ m epoch, (train_batches m epoch).1) m
                  (py_range2 i (Z.min num_epoch (i + step))) in
      (Z.min num_epoch (i + step), m') :: checkpoints step m' blocks'
  end.
End TrainLoop.

(** ** The entry point ([main], lines 300-327)

    [main] hands nothing back; the value below is what its last statement,
    the call of [test] on line 327, evaluates to, with the output directory
    the run leaves.  [fresh] is the state of the model as line 298 builds
    it, [checkpoint] the state stored in the file [cfg.checkpoint] names
    when the configuration names one. *)
Section Main.
Context {model_state : Type}.
Variable train_batches : model_state → Z → model_state * nat.
Variable evaluate : model_state → result tfloat.
Variable num_epoch : Z.

(** Lines 300-302. *)
Definition initial_model (fresh : model_state) (checkpoint : option model_state)
  : model_state :=
  match checkpoint with
  | Some state => state
  | None => fresh
  end.

(** Lines 314-327. *)
Definition main (fresh : model_state) (checkpoint : option model_state)
    (dir0 : gmap Z model_state) : result (tfloat * gmap Z model_state) :=
  let m := initial_model fresh checkpoint in
  let? trained := train_and_validate train_batches evaluate num_epoch m dir0 in
  let? result := evaluate trained.1 in
  Ok (result, trained.2).
End Main.

(** ** Mini-batch loss ([train_and_validate], lines 94-109)

    The scores of a mini-batch are real numbers here: the loss goes through
    [exp] and [log].  [F.binary_cross_entropy_with_logits] and [F.softmax]
    are the functions of their documentation. *)

Definition Rsum (l : list R) : R := foldr Rplus 0%R l.

Definition sigmoid (x : R) : R := (1 / (1 + exp (- x)))%R.

(** [F.binary_cross_entropy_with_logits(x, y, reduction="none")], one entry. *)
Definition bce_with_logits (x y : R) : R :=
  (- (y * ln (sigmoid x) + (1 - y) * ln (1 - sigmoid x)))%R.

(** [F.softmax(xs, dim=-1)], one row. *)
Definition softmax (xs : list R) : list R :=
  (λ x, exp x / Rsum (exp <$> xs))%R <$> xs.

(** [t[:, 0] = v], one row; a row without columns has no index 0. *)
Definition set_col0 (v : R) (row : list R) : result (list R) :=
  match row with
  | [] => Err (IndexError "index 0 is out of bounds for dimension 1 with size 0")
  | _ :: rest => Ok (v :: rest)
  end.

(** [t[:, 1:] = vs], one row, [vs] a row of the width of the slice. *)
Definition set_cols_from1 (vs : list R) (row : list R) : list R :=
  take 1 row ++ vs.

Section Loss.
Variable adversarial_temperature : R.
Variable num_negative : Z.

(** Lines 95-96. *)
Definition target_of (pred : list (list R)) : result (list (list R)) :=
  sequence_result (set_col0 1%R <$> ((λ row, (λ _, 0%R) <$> row) <$> pred)).

(** Lines 100-107. *)
Definition neg_weight_of (pred : list (list R)) : result (list (list R)) :=
  let ones := (λ row, (λ _, 1%R) <$> row) <$> pred in
  if Rlt_dec 0 adversarial_temperature then
    Ok (zip_with
          (λ one row,
             set_cols_from1
               (softmax ((λ x, x / adversarial_temperature)%R <$> drop 1 row)) one)
          ones pred)
  else if num_negative =? 0 then Err (ZeroDivisionError "division by zero")
  else Ok ((λ one, set_cols_from1 ((λ _, 1 / IZR num_negative)%R <$> drop 1 one) one)
             <$> ones).

(** Lines 97-99 and 108: the loss of every row of the mini-batch. *)
Definition row_losses (pred : list (list R)) : result (list R) :=
  let? target := target_of pred in
  let loss := zip_with (zip_with bce_with_logits) pred target in
  let? neg_weight := neg_weight_of pred in
  Ok (zip_with (λ l w, Rsum (zip_with Rmult l w) / Rsum w)%R loss neg_weight).

(** Line 109. *)
Definition batch_loss (pred : list (list R)) : result R :=
  let? rows := row_losses pred in
  Ok (Rsum rows / INR (length rows))%R.
End Loss.

(** ** The mini-batches of an epoch ([train_and_validate], lines 53, 73, 81-126)

    [update m b] is what lines 88-113 and 118 do with one mini-batch: the
    state the optimizer step leaves and the number [loss.item()].  The
    loader of an epoch is the list of the mini-batches the sampler yields
    for it. *)
Section EpochBatches.
Context {model_state batch : Type}.
Variable update : model_state → batch → model_state * tfloat.
Variable rank : nat.
Variable log_interval : Z.

(** Line 53: [batch_per_epoch or len(train_loader)]. *)
Definition batches_per_epoch (batch_per_epoch : option Z) (loader_len : nat) : Z :=
  match batch_per_epoch with
  | Some n => if n =? 0 then Z.of_nat loader_len else n
  | None => Z.of_nat loader_len
  end.

(** Line 84: [islice(train_loader, batch_per_epoch)]. *)
Definition islice (loader : list batch) (stop : Z) : result (list batch) :=
  if (stop <? 0) || (2 ^ 63 - 1 <? stop)
  then Err (ValueError
              "Stop argument for islice() must be None or an integer: 0 <= x <= sys.maxsize.")
  else Ok (take (Z.to_nat stop) loader).

(** The variables the loop over the mini-batches changes: the parameters,
    the list [losses], the counter [batch_id] (which runs on across the
    epochs) and the losses handed to the logger, each with its counter. *)
Record epoch_state : Type := {
  params : model_state;
  losses : list tfloat;
  batch_id : Z;
  loss_log : list (Z * tfloat);
}.

(** Lines 88-119, one mini-batch.  The logging test of line 115 is only
    evaluated past [utils.get_rank() == 0]; its [%] raises on a zero
    interval (the wording of the message varies with the interpreter). *)
Definition batch_pass (st : epoch_state) (b : batch) : result epoch_state :=
  let stepped := update (params st) b in
  let? report :=
    if decide (rank = 0%nat) then
      if log_interval =? 0 then Err (ZeroDivisionError "integer modulo by zero")
      else Ok (batch_id st mod log_interval =? 0)
    else Ok false in
  Ok {| params := stepped.1;
        losses := losses st ++ [stepped.2];
        batch_id := batch_id st + 1;
        loss_log := if report then loss_log st ++ [(batch_id st, stepped.2)]
                    else loss_log st |}.

(** Lines 81-126: one epoch, from the parameters [m] with the counter at
    [id0].  The second component is the average loss rank 0 logs. *)
Definition run_epoch (batch_per_epoch : option Z) (loader : list batch)
    (m : model_state) (id0 : Z) : result (epoch_state * option tfloat) :=
  let? batches := islice loader (batches_per_epoch batch_per_epoch (length loader)) in
  let? st := foldM batch_pass batches
               {| params := m; losses := []; batch_id := id0; loss_log := [] |} in
  let? avg_loss :=
    if decide (rank = 0%nat) then
      match losses st with
      | [] => Err (ZeroDivisionError "division by zero")
      | _ => Ok (Some (tf_div (tf_sum (losses st))
                         (to_float (Z.of_nat (length (losses st))))))
      end
    else Ok None in
  Ok (st, avg_loss).
End EpochBatches.

(** * Notions of the specification, used in the statements *)







(** No occurrence of a character. *)
Fixpoint char_free (c : ascii) (s : string) : bool :=
  match s with
  | EmptyString => true
  | String a s' => negb (Ascii.eqb a c) && char_free c s'
  end.

(** Decimal digits only. *)
Fixpoint digits_only (s : string) : bool :=
  match s with
  | EmptyString => true
  | String a s' => bool_decide (is_Some (digit_of a)) && digits_only s'
  end.

(** Sum of a list of rationals. *)
Definition Qc_sum (l : list Qc) : Qc := foldr Qcplus (Q2Qc 0) l.

(** Mean of a list of rationals. *)
Definition mean_of (l : list Qc) : Qc :=
  (Qc_sum l / Qc_of_Z (Z.of_nat (length l)))%Qc.

(** The end of a pass of the metric loop: the variable [score] is read. *)
Definition finish_pass (score : result (option tfloat)) : result tfloat :=
  let? s := score in
  match s with
  | Some v => Ok v
  | None => Err (UnboundLocalError "score")
  end.


(** The estimated false-positive rate of one query, [(rank-1)/num_negatives]. *)
Definition fp_rate (rank num_neg : Z) : tfloat :=
  tf_div (to_float (rank - 1)) (to_float num_neg).




(** Ranks a long tensor holds: at least one, below [2^63]. *)
Definition valid_rank (r : Z) : Prop := 1 ≤ r < 2 ^ 63.

(** The name [hits@K_S]. *)
Definition hits_sub_name (K M : nat) : string :=
  "hits@" +:+ (dec K +:+ String "_" (dec M)).

(** Aggregates of four queries, the ranking vector of the worked example. *)
Definition demo_aggregates : aggregates :=
  {| all_ranking := [1; 2; 3; 4]; all_num_negative := [5; 5; 5; 5];
     all_ranking_t := [1; 3]; all_num_negative_t := [5; 5] |}.





(** The comparison of line 139 on the pair (best result, best epoch). *)
Definition pick (best : tfloat * Z) (epoch : Z) (result : tfloat) : tfloat * Z :=
  if tf_gt result best.1 then (result, epoch) else best.

(** Scores of a run of three epochs whose second block is the best. *)
Definition demo_evaluate (m : Z) : result tfloat :=
  Ok (Fin (if m =? 2 then Q2Qc (1 # 2) else Q2Qc (1 # 4))).




(** The weights of a row as the code lays them out. *)
Definition row_weights (temperature : R) (N : Z) (row : list R) : list R :=
  if Rlt_dec 0 temperature
  then 1%R :: softmax ((λ x, x / temperature)%R <$> drop 1 row)
  else 1%R :: ((λ _, 1 / IZR N)%R <$> drop 1 row).

(** The score of a checkpoint: what [evaluate] returns on its state. *)
Definition score_at {model_state : Type} (evaluate : model_state → result tfloat)
    (m : model_state) : tfloat :=
  match evaluate m with
  | Ok r => r
  | Err _ => NaN
  end.

(** The aggregates with the tail-only vectors in the place of the combined
    ones. *)
Definition tail_view (ag : aggregates) : aggregates :=
  {| all_ranking := all_ranking_t ag; all_num_negative := all_num_negative_t ag;
     all_ranking_t := all_ranking_t ag; all_num_negative_t := all_num_negative_t ag |}.

(** A name no branch of lines 249-275 takes, on the combined path. *)
Definition unknown_name (metric : string) : Prop :=
  contains "-tail" metric = false
  ∧ metric ≠ "mr" ∧ metric ≠ "mrr"
  ∧ String.prefix "hits@" metric = false.

(** * Properties *)

(** ** 64-bit arithmetic *)


Lemma in_i64_0 : in_i64 0.
Proof. unfold in_i64. lia. Qed.




(** ** Sum-reduction of zero-padded buffers *)







(** ** The size vector and the offsets *)





(** ** The two collectives *)







(** ** The aggregated vectors of an evaluation pass *)








(** ** Metric names *)

Lemma digit_plain (a : ascii) :
  is_Some (digit_of a) →
  is_space a = false ∧ Ascii.eqb a "-" = false ∧ Ascii.eqb a "_" = false
  ∧ Ascii.eqb a "+" = false.
Proof.
  intros [d Hd]. revert Hd.
  destruct a as [[] [] [] [] [] [] [] []]; vm_compute; intros; try discriminate;
    repeat split.
Qed.

Lemma digits_char_free (c : ascii) (s : string) :
  c = "-"%char ∨ c = "_"%char →
  digits_only s = true → char_free c s = true.
Proof.
  intros Hc. induction s as [|a s IH]; simpl; [done|].
  intros [Ha Hs]%andb_prop. apply bool_decide_eq_true in Ha.
  destruct (digit_plain a Ha) as (_ & Hd & Hu & _).
  rewrite IH by done. destruct Hc as [-> | ->]; by rewrite ?Hd, ?Hu.
Qed.

Lemma char_free_app (c : ascii) (s1 s2 : string) :
  char_free c (s1 +:+ s2) = char_free c s1 && char_free c s2.
Proof.
  induction s1 as [|a s1 IH]; simpl; [done|].
  by rewrite IH, andb_assoc.
Qed.

Lemma prefix_head (a b : ascii) (p s : string) :
  String.prefix (String a p) (String b s) = true → a = b.
Proof. simpl. by destruct (ascii_dec a b). Qed.

Lemma contains_tail_free (s : string) :
  char_free "-" s = true → contains "-tail" s = false.
Proof.
  induction s as [|a s IH]; [done|].
  intros [Ha Hs]%andb_prop.
  change (contains "-tail" (String a s))
    with (String.prefix "-tail" (String a s) || contains "-tail" s).
  rewrite IH by done.
  destruct (String.prefix "-tail" (String a s)) eqn:Hp; [|done].
  apply prefix_head in Hp. subst a. done.
Qed.

Lemma split_on_free (c : ascii) (s : string) :
  char_free c s = true → split_on c s = [s].
Proof.
  induction s as [|a s IH]; simpl; [done|].
  intros [Ha Hs]%andb_prop. apply negb_true_iff in Ha.
  by rewrite Ha, IH.
Qed.

Lemma split_on_app (c : ascii) (s1 s2 : string) :
  char_free c s1 = true →
  split_on c (s1 +:+ String c s2) = s1 :: split_on c s2.
Proof.
  induction s1 as [|a s1 IH]; simpl.
  - intros _. by rewrite Ascii.eqb_refl.
  - intros [Ha Hs]%andb_prop. apply negb_true_iff in Ha.
    by rewrite Ha, IH.
Qed.

Lemma lstrip_digits (s : string) : digits_only s = true → lstrip s = s.
Proof.
  destruct s as [|a s]; simpl; [done|].
  intros [Ha _]%andb_prop. apply bool_decide_eq_true in Ha.
  destruct (digit_plain a Ha) as (-> & _). done.
Qed.

Lemma rstrip_digits (s : string) : digits_only s = true → rstrip s = s.
Proof.
  induction s as [|a s IH]; simpl; [done|].
  intros [Ha Hs]%andb_prop. apply bool_decide_eq_true in Ha.
  destruct (digit_plain a Ha) as (-> & _).
  rewrite IH by done. by destruct s.
Qed.

Lemma digits_only_uint (d : Decimal.uint) :
  digits_only (NilEmpty.string_of_uint d) = true.
Proof. induction d; simpl; by rewrite ?IHd. Qed.

Lemma parse_digits_uint (d : Decimal.uint) (acc : nat) :
  parse_digits (NilEmpty.string_of_uint d) (Z.of_nat acc)
  = Some (Z.of_nat (Nat.of_uint_acc d acc)).
Proof.
  revert acc. induction d; intros acc; simpl; [done|..];
    rewrite Nat.tail_mul_spec;
    match goal with
    | |- parse_digits _ ?z = Some (Z.of_nat (Nat.of_uint_acc _ ?n)) =>
        replace z with (Z.of_nat n)
          by (set (k := nat_of_ascii _); vm_compute in k; subst k; lia)
    end; apply IHd.
Qed.

Lemma dec_digits (n : nat) : digits_only (dec n) = true.
Proof. apply digits_only_uint. Qed.

Lemma dec_nonempty (n : nat) : dec n ≠ EmptyString.
Proof.
  unfold dec.
  rewrite <- (DecimalNat.Unsigned.of_to n) at 1.
  rewrite DecimalNat.Unsigned.to_of.
  pose proof (DecimalFacts.unorm_nonnil (Nat.to_uint n)) as Hnn.
  by destruct (Decimal.unorm (Nat.to_uint n)).
Qed.

(** [int] reads a decimal rendering back. *)
Lemma py_int_dec (n : nat) : py_int (dec n) = Ok (Z.of_nat n).
Proof.
  pose proof (dec_digits n) as Hd. pose proof (dec_nonempty n) as Hne.
  unfold py_int. rewrite lstrip_digits, rstrip_digits by done.
  assert (parse_unsigned (dec n) = Some (Z.of_nat n)) as Hp.
  { unfold parse_unsigned. destruct (dec n) eqn:E; [done|]. rewrite <- E.
    unfold dec. change 0 with (Z.of_nat 0). rewrite parse_digits_uint.
    do 2 f_equal. apply DecimalNat.Unsigned.of_to. }
  destruct (dec n) as [|a s] eqn:E; [done|].
  simpl in Hd. apply andb_prop in Hd as [Ha _]. apply bool_decide_eq_true in Ha.
  destruct (digit_plain a Ha) as (_ & Hm & _ & Hpl).
  replace (match String a s with
           | String "+" r => parse_unsigned r
           | String "-" r => Z.opp <$> parse_unsigned r
           | _ => parse_unsigned (String a s)
           end) with (parse_unsigned (String a s)); [by rewrite Hp|].
  clear -Hm Hpl.
  destruct a as [[] [] [] [] [] [] [] []]; try done.
Qed.

(** ** Exact arithmetic on finite scalars *)

Lemma Qc_of_Z_inj (a b : Z) : Qc_of_Z a = Qc_of_Z b → a = b.
Proof.
  unfold Qc_of_Z. intros H. apply Q2Qc_eq_iff in H.
  unfold Qeq in H. simpl in H. lia.
Qed.

Lemma Qc_of_Z_add (a b : Z) : Qc_of_Z (a + b) = (Qc_of_Z a + Qc_of_Z b)%Qc.
Proof.
  unfold Qc_of_Z, Qcplus. apply Q2Qc_eq_iff. simpl.
  rewrite !Qred_correct. unfold Qeq, Qplus. simpl. lia.
Qed.

Lemma Qc_of_Z_mul (a b : Z) : Qc_of_Z (a * b) = (Qc_of_Z a * Qc_of_Z b)%Qc.
Proof.
  unfold Qc_of_Z, Qcmult. apply Q2Qc_eq_iff. simpl.
  rewrite !Qred_correct. unfold Qeq, Qmult. simpl. lia.
Qed.

Lemma Qc_is_zero_of_Z (z : Z) : z ≠ 0 → Qc_is_zero (Qc_of_Z z) = false.
Proof.
  intros Hz. unfold Qc_is_zero. apply bool_decide_eq_false.
  intros H. by apply (Qc_of_Z_inj z 0) in H.
Qed.

Lemma Qc_of_Z_nonzero (z : Z) : z ≠ 0 → Qc_of_Z z ≠ Q2Qc 0.
Proof. intros Hz H. by apply (Qc_of_Z_inj z 0) in H. Qed.


Lemma tf_foldl_fin (l : list Qc) (a : Qc) :
  foldl tf_add (Fin a) (Fin <$> l) = Fin (a + Qc_sum l)%Qc.
Proof.
  revert a. induction l as [|x l IH]; intros a; simpl.
  - f_equal. unfold Qc_sum. simpl. ring.
  - rewrite IH. f_equal. unfold Qc_sum. simpl. ring.
Qed.

Lemma tf_sum_fin (l : list Qc) : tf_sum (Fin <$> l) = Fin (Qc_sum l).
Proof. unfold tf_sum. rewrite tf_foldl_fin. f_equal. ring. Qed.

Lemma tf_mean_fin (l : list Qc) : l ≠ [] → tf_mean (Fin <$> l) = Fin (mean_of l).
Proof.
  intros Hl. unfold tf_mean, mean_of. rewrite tf_sum_fin, length_fmap.
  unfold tf_div, to_float. rewrite Qc_is_zero_of_Z; [done|].
  destruct l; [done|]. simpl. lia.
Qed.

Lemma Qc_sum_indicator (P : Z → bool) (l : list Z) :
  Qc_sum ((λ r, if P r then Q2Qc 1 else Q2Qc 0) <$> l)
  = Qc_of_Z (Z.of_nat (length (filter (λ r, P r = true) l))).
Proof.
  induction l as [|x l IH]; [done|].
  rewrite fmap_cons. unfold Qc_sum in *. cbn [foldr]. rewrite IH.
  rewrite filter_cons. destruct (P x) eqn:E.
  - rewrite decide_True by done. cbn [length].
    rewrite Nat2Z.inj_succ, <- Z.add_1_l, Qc_of_Z_add. done.
  - rewrite decide_False by done. ring.
Qed.

(** ** The exact metrics *)

Lemma metric_pass_combined (ag : aggregates) (prev : option tfloat) (metric : string) :
  contains "-tail" metric = false →
  metric_pass ag prev metric
  = finish_pass (score_of prev metric (all_ranking ag) (all_num_negative ag)).
Proof. intros H. unfold metric_pass, route. by rewrite H. Qed.

Lemma hits_name_shape (rest : string) :
  char_free "-" rest = true →
  contains "-tail" ("hits@" +:+ rest) = false.
Proof. intros H. by apply contains_tail_free. Qed.

Lemma score_of_hits (prev : option tfloat) (rest : string) (_ranking _num_neg : list Z) :
  score_of prev ("hits@" +:+ rest) _ranking _num_neg
  = let values := split_on "_" rest in
    let? threshold := py_int (default EmptyString (values !! 0%nat)) in
    if decide (1 < length values)%nat then
      let? num_sample := py_int (default EmptyString (values !! 1%nat)) in
      let? score := unbiased_hits threshold num_sample _ranking _num_neg in
      Ok (Some score)
    else
      let? scalar := long_scalar threshold in
      Ok (Some (exact_hits scalar _ranking)).
Proof.
  unfold score_of.
  change (("hits@" +:+ rest =? "mr")%string) with false.
  change (("hits@" +:+ rest =? "mrr")%string) with false.
  replace (String.prefix "hits@" ("hits@" +:+ rest)) with true; [done|].
  simpl. by destruct rest.
Qed.

Lemma exact_hits_fin (threshold : Z) (_ranking : list Z) :
  _ranking ≠ [] →
  exact_hits threshold _ranking
  = Fin (Qc_of_Z (Z.of_nat (length (filter (λ r, (r ≤ threshold)%Z) _ranking)))
         / Qc_of_Z (Z.of_nat (length _ranking)))%Qc.
Proof.
  intros Hne. unfold exact_hits.
  rewrite (list_fmap_ext _
    (Fin ∘ (λ r, if r <=? threshold then Q2Qc 1 else Q2Qc 0))); cycle 1.
  { intros i r _. simpl. by destruct (r <=? threshold). }
  rewrite list_fmap_compose, tf_mean_fin by (by destruct _ranking).
  unfold mean_of. rewrite length_fmap, (Qc_sum_indicator (λ r, r <=? threshold)).
  do 5 f_equal. apply list_filter_iff. intros r. apply Z.leb_le.
Qed.

(** A pass on [hits@K] is the exact metric on the combined aggregates. *)
Lemma long_scalar_fits (z : Z) : in_i64 z → long_scalar z = Ok z.
Proof.
  unfold in_i64, long_scalar. intros Hz.
  destruct (Z.leb_spec (- 2 ^ 63) z); [|lia].
  destruct (Z.ltb_spec z (2 ^ 63)); [done|lia].
Qed.

Lemma metric_pass_hits (ag : aggregates) (prev : option tfloat) (K : nat) :
  Z.of_nat K < 2 ^ 63 →
  metric_pass ag prev ("hits@" +:+ dec K)
  = Ok (exact_hits (Z.of_nat K) (all_ranking ag)).
Proof.
  intros HK.
  pose proof (digits_char_free "-" (dec K) (or_introl eq_refl) (dec_digits K)) as Hd.
  pose proof (digits_char_free "_" (dec K) (or_intror eq_refl) (dec_digits K)) as Hu.
  rewrite metric_pass_combined by (by apply hits_name_shape).
  rewrite score_of_hits. rewrite split_on_free by done.
  cbv zeta. cbn [lookup list_lookup default]. unfold Datatypes.id.
  rewrite py_int_dec.
  cbn [rbind length]. rewrite decide_False by lia.
  rewrite long_scalar_fits by (unfold in_i64; lia). done.
Qed.

(** C6.  On a non-empty aggregated ranking vector the metric engine scores
    [mr] as the mean of the ranks, [mrr] as the mean of their reciprocals
    (ranks are non-zero) and [hits@K], for [K] a 64-bit integer, as the
    number of ranks at most [K] over the number of queries; on [[1,2,3,4]]
    these are 5/2, 25/48 (that is (1 + 1/2 + 1/3 + 1/4)/4), 1/4 for
    [hits@1] and 1/2 for [hits@2]. *)
Theorem C6_exact_metrics (ag : aggregates) (prev : option tfloat) :
  all_ranking ag ≠ [] →
  metric_pass ag prev "mr" = Ok (Fin (mean_of (Qc_of_Z <$> all_ranking ag)))
  ∧ (Forall (λ r, r ≠ 0) (all_ranking ag) →
     metric_pass ag prev "mrr"
     = Ok (Fin (mean_of ((λ r, Q2Qc 1 / Qc_of_Z r)%Qc <$> all_ranking ag))))
  ∧ (∀ K : nat,
       Z.of_nat K < 2 ^ 63 →
       metric_pass ag prev ("hits@" +:+ dec K)
       = Ok (Fin (Qc_of_Z (Z.of_nat (length (filter (λ r, (r ≤ Z.of_nat K)%Z)
                                               (all_ranking ag))))
                  / Qc_of_Z (Z.of_nat (length (all_ranking ag))))%Qc))
  ∧ (all_ranking ag = [1; 2; 3; 4] →
     metric_pass ag prev "mr" = Ok (Fin (Q2Qc (5 # 2)))
     ∧ metric_pass ag prev "mrr"
       = Ok (Fin ((Q2Qc 1 + Q2Qc (1 # 2) + Q2Qc (1 # 3) + Q2Qc (1 # 4)) / Q2Qc 4)%Qc)
     ∧ metric_pass ag prev "hits@1" = Ok (Fin (Q2Qc (1 # 4)))
     ∧ metric_pass ag prev "hits@2" = Ok (Fin (Q2Qc (1 # 2)))).
Proof.
  intros Hne. repeat split.
  - rewrite metric_pass_combined by done.
    unfold score_of, mr_score. simpl. unfold to_float.
    change (λ z, Fin (Qc_of_Z z)) with (Fin ∘ Qc_of_Z).
    rewrite (list_fmap_compose Qc_of_Z Fin), tf_mean_fin; [done|].
    by destruct (all_ranking ag).
  - intros Hnz. rewrite metric_pass_combined by done.
    unfold score_of, mrr_score. simpl.
    rewrite (list_fmap_ext _ (Fin ∘ (λ r, Q2Qc 1 / Qc_of_Z r)%Qc)); cycle 1.
    { intros i r Hr. simpl.
      assert (r ≠ 0) as Hr0.
      { eapply Forall_lookup_1 in Hnz; [exact Hnz|exact Hr]. }
      unfold tf_div, to_float. by rewrite Qc_is_zero_of_Z. }
    rewrite list_fmap_compose, tf_mean_fin; [done|].
    by destruct (all_ranking ag).
  - intros K HK. rewrite metric_pass_hits by done.
    by rewrite exact_hits_fin.
  - rewrite metric_pass_combined by done. rewrite H.
    vm_compute. first [reflexivity | do 2 f_equal; by apply Qc_is_canon].
  - rewrite metric_pass_combined by done. rewrite H.
    vm_compute. first [reflexivity | do 2 f_equal; by apply Qc_is_canon].
  - rewrite metric_pass_combined by done. rewrite H.
    vm_compute. first [reflexivity | do 2 f_equal; by apply Qc_is_canon].
  - rewrite metric_pass_combined by done. rewrite H.
    vm_compute. first [reflexivity | do 2 f_equal; by apply Qc_is_canon].
Qed.

Lemma C6_witness :
  metric_pass demo_aggregates None "mr" = Ok (Fin (Q2Qc (5 # 2)))
  ∧ metric_pass demo_aggregates None "hits@2" = Ok (Fin (Q2Qc (1 # 2))).
Proof.
  destruct (C6_exact_metrics demo_aggregates None) as (_ & _ & _ & Hex).
  - simpl. discriminate.
  - destruct Hex as (Hmr & _ & _ & Hh2); [reflexivity|].
    split; [exact Hmr | exact Hh2].
Defined.

(** The MRR that [test] hands to the training loop is a number as soon as
    there is a query and no rank is zero. *)
Lemma mrr_score_fin (_ranking : list Z) :
  _ranking ≠ [] →
  Forall (λ r, r ≠ 0) _ranking →
  mrr_score _ranking = Fin (mean_of ((λ r, Q2Qc 1 / Qc_of_Z r)%Qc <$> _ranking)).
Proof.
  intros Hne Hnz. unfold mrr_score.
  rewrite (list_fmap_ext _ (Fin ∘ (λ r, Q2Qc 1 / Qc_of_Z r)%Qc)); cycle 1.
  { intros i r Hr. simpl.
    assert (r ≠ 0) as Hr0.
    { eapply Forall_lookup_1 in Hnz; [exact Hnz|exact Hr]. }
    unfold tf_div, to_float. by rewrite Qc_is_zero_of_Z. }
  rewrite list_fmap_compose, tf_mean_fin; [done|].
  by destruct _ranking.
Qed.

(** ** The unbiased estimator, query by query *)


















(** A pass on [hits@K_S] is a call of the estimator on the combined
    aggregates with the two numbers of the name. *)
Lemma metric_pass_hits_sub (ag : aggregates) (prev : option tfloat) (K M : nat) :
  metric_pass ag prev (hits_sub_name K M)
  = let? score := unbiased_hits (Z.of_nat K) (Z.of_nat M)
                    (all_ranking ag) (all_num_negative ag) in
    Ok score.
Proof.
  pose proof (digits_char_free "-" (dec K) (or_introl eq_refl) (dec_digits K)) as HdK.
  pose proof (digits_char_free "_" (dec K) (or_intror eq_refl) (dec_digits K)) as HuK.
  pose proof (digits_char_free "-" (dec M) (or_introl eq_refl) (dec_digits M)) as HdM.
  pose proof (digits_char_free "_" (dec M) (or_intror eq_refl) (dec_digits M)) as HuM.
  unfold hits_sub_name.
  rewrite metric_pass_combined; cycle 1.
  { apply hits_name_shape. rewrite char_free_app. simpl. by rewrite HdK, HdM. }
  rewrite score_of_hits, split_on_app, split_on_free by done.
  cbv zeta. cbn [lookup list_lookup default length]. unfold Datatypes.id.
  rewrite !py_int_dec. cbn [rbind]. rewrite decide_True by lia.
  unfold finish_pass.
  by destruct (unbiased_hits _ _ _ _).
Qed.

(** ** Scores of queries with a rational rate *)











Lemma demo_valid_ranks : Forall valid_rank (all_ranking demo_aggregates).
Proof.
  repeat (apply Forall_cons; split); try apply Forall_nil; unfold valid_rank; lia.
Defined.



(** ** The estimator at the two extreme rates *)











(** ** The unguarded quotient *)






(** ** Routing of metric names *)

Lemma prefix_refl (s : string) : String.prefix s s = true.
Proof.
  induction s as [|a s IH]; [done|].
  simpl. by destruct (ascii_dec a a).
Qed.

Lemma contains_suffix (pat base : string) :
  contains pat (base +:+ pat) = true.
Proof.
  induction base as [|a base IH].
  - change (EmptyString +:+ pat) with pat.
    destruct pat as [|c pat]; [done|].
    change (contains (String c pat) (String c pat))
      with (String.prefix (String c pat) (String c pat)
            || contains (String c pat) pat).
    by rewrite prefix_refl.
  - change (contains pat (String a base +:+ pat))
      with (String.prefix pat (String a (base +:+ pat))
            || contains pat (base +:+ pat)).
    rewrite IH. apply orb_true_r.
Qed.

(** A name [base-tail], [base] free of dashes, is scored on the tail-only
    aggregates under the name [base]. *)
Lemma route_tail (ag : aggregates) (base : string) :
  char_free "-" base = true →
  route ag (base +:+ "-tail")
  = Ok (all_ranking_t ag, all_num_negative_t ag, base).
Proof.
  intros Hfree. unfold route.
  rewrite contains_suffix.
  change (base +:+ "-tail") with (base +:+ String "-" "tail").
  by rewrite split_on_app.
Qed.

(** C4.  The pass of the metric loop at a name with a direction suffix.
    A name [base-tail] is scored on the tail-only aggregates.  A suffix
    other than [-tail] reaches the check of the direction only when it
    begins with [tail]; a name such as [mrr-head] is taken for the name of
    a metric on the combined aggregates, matches no branch and is reported
    with the score of the metric before it. *)
Theorem C4_non_tail_suffix_not_rejected :
  (∀ (ag : aggregates) (base : string),
     char_free "-" base = true →
     route ag (base +:+ "-tail")
     = Ok (all_ranking_t ag, all_num_negative_t ag, base))
  ∧ metric_pass demo_aggregates None "mrr-tails"
    = Err (ValueError "Only tail metric is supported in this mode")
  ∧ route demo_aggregates "mrr-head"
    = Ok (all_ranking demo_aggregates, all_num_negative demo_aggregates, "mrr-head")
  ∧ (∃ st : metric_state,
       metric_loop demo_aggregates ["mr"; "mrr-head"] metric_init = Ok st
       ∧ metrics st !! "mrr-head" = Some (mr_score (all_ranking demo_aggregates))
       ∧ reported st
         = [("mr", mr_score (all_ranking demo_aggregates));
            ("mrr-head", mr_score (all_ranking demo_aggregates))]).
Proof.
  split; [exact route_tail|]. split; [done|]. split; [done|].
  eexists. split; [reflexivity|]. split; [|reflexivity].
  cbn [metrics]. apply lookup_insert_eq.
Qed.

(** ** Where the metrics are computed *)





(** ** Best-checkpoint selection *)

Section TrainLoopFacts.
Context {model_state : Type}.
Variable train_batches : model_state → Z → model_state * nat.
Variable evaluate : model_state → result tfloat.
Variable num_epoch : Z.
Hypothesis batches_nonempty : ∀ m epoch, (train_batches m epoch).2 ≠ 0%nat.
Hypothesis evaluate_finite : ∀ m, ∃ q, evaluate m = Ok (Fin q).

Lemma train_epochs_run (epochs : list Z) (m : model_state) :
  foldM (train_epoch train_batches) epochs m
  = Ok (foldl (λ m epoch, (train_batches m epoch).1) m epochs).
Proof.
  revert m. induction epochs as [|epoch epochs IH]; intros m; [done|].
  cbn [foldM foldl]. unfold train_epoch at 1.
  destruct (Nat.eqb_spec (train_batches m epoch).2 0) as [Hz|_].
  - by apply batches_nonempty in Hz.
  - cbn [rbind]. apply IH.
Qed.

Lemma block_run (step : Z) (st : loop_state) (i : Z) :
  let m := foldl (λ m epoch, (train_batches m epoch).1) (model st)
             (py_range2 i (Z.min num_epoch (i + step))) in
  let best := pick (best_result st, best_epoch st)
                (Z.min num_epoch (i + step)) (score_at evaluate m) in
  block train_batches evaluate num_epoch step st i
  = Ok {| model := m;
          output_dir := <[Z.min num_epoch (i + step) := m]> (output_dir st);
          best_result := best.1; best_epoch := best.2 |}.
Proof.
  intros m best. unfold block. rewrite train_epochs_run. cbn [rbind].
  fold m. subst best. unfold pick, score_at.
  destruct (evaluate_finite m) as [q ->]. cbn [rbind fst snd].
  by destruct (tf_gt (Fin q) (best_result st)).
Qed.

Lemma foldM_block (step : Z) (blocks : list Z) (st : loop_state) :
  ∃ st' : loop_state,
    foldM (block train_batches evaluate num_epoch step) blocks st = Ok st'
    ∧ output_dir st'
      = foldl (λ d c, <[c.1 := c.2]> d) (output_dir st)
          (checkpoints train_batches num_epoch step (model st) blocks)
    ∧ (best_result st', best_epoch st')
      = foldl (λ b c, pick b c.1 (score_at evaluate c.2)) (best_result st, best_epoch st)
          (checkpoints train_batches num_epoch step (model st) blocks).
Proof.
  revert st. induction blocks as [|i blocks IH]; intros st.
  - exists st. done.
  - cbn [foldM checkpoints foldl]. rewrite block_run. cbn [rbind].
    match goal with
    | |- ∃ st', foldM _ _ ?s = _ ∧ _ => destruct (IH s) as (st' & H1 & H2 & H3)
    end.
    exists st'. rewrite H1, H2, H3.
    cbn [model output_dir best_result best_epoch fst snd].
    by rewrite <- surjective_pairing.
Qed.

Lemma pick_fold_first_best (cps : list (Z * model_state)) :
  cps ≠ [] →
  ∃ (b : nat) (e : Z) (m : model_state) (q : Qc),
    cps !! b = Some (e, m)
    ∧ evaluate m = Ok (Fin q)
    ∧ foldl (λ b c, pick b c.1 (score_at evaluate c.2)) (Inf true, -1) cps = (Fin q, e)
    ∧ ∀ (j : nat) (e' : Z) (m' : model_state) (q' : Qc),
        cps !! j = Some (e', m') → evaluate m' = Ok (Fin q') →
        (q' <= q)%Qc ∧ ((j < b)%nat → (q' < q)%Qc).
Proof.
  induction cps as [|[e m] cps IH] using rev_ind; [done|]. intros _.
  rewrite foldl_snoc. destruct (evaluate_finite m) as [q Hq].
  assert (∀ (j : nat) (e' : Z) (m' : model_state) (q' : Qc),
            (cps ++ [(e, m)]) !! j = Some (e', m') → evaluate m' = Ok (Fin q') →
            (j < length cps)%nat ∨ (j = length cps ∧ q' = q)) as Hsplit.
  { intros j e' m' q' Hj Hq'.
    destruct (decide (j < length cps)%nat) as [Hlt|Hge]; [by left|right].
    assert (j = length cps) as ->.
    { apply lookup_lt_Some in Hj. rewrite length_app in Hj. simpl in Hj. lia. }
    rewrite list_lookup_middle in Hj by done. injection Hj as <- <-.
    rewrite Hq in Hq'. by injection Hq' as ->. }
  destruct (decide (cps = [])) as [->|Hne].
  - exists 0%nat, e, m, q. cbn [app foldl]. unfold pick, score_at. cbn [fst snd].
    rewrite Hq. split; [done|]. split; [done|]. split; [done|].
    intros j e' m' q' Hj Hq'.
    destruct (Hsplit j e' m' q' Hj Hq') as [Hlt | [-> ->]]; [simpl in Hlt; lia|].
    split; [apply Qcle_refl|simpl; lia].
  - destruct (IH Hne) as (b & eb & mb & qb & Hb & Hqb & Hfold & Hbest).
    pose proof (lookup_lt_Some _ _ _ Hb) as Hblt.
    rewrite Hfold. unfold pick, score_at. cbn [fst snd]. rewrite Hq.
    cbn [tf_gt]. destruct (bool_decide (qb < q)%Qc) eqn:Hcmp.
    + apply bool_decide_eq_true in Hcmp.
      exists (length cps), e, m, q.
      split; [by rewrite list_lookup_middle|]. split; [done|]. split; [done|].
      intros j e' m' q' Hj Hq'.
      destruct (Hsplit j e' m' q' Hj Hq') as [Hlt | [-> ->]].
      * rewrite lookup_app_l in Hj by done.
        destruct (Hbest j e' m' q' Hj Hq') as [Hle _].
        split; [|intros _]; [apply Qclt_le_weak|]; by eapply Qcle_lt_trans.
      * split; [apply Qcle_refl|lia].
    + apply bool_decide_eq_false in Hcmp. apply Qcnot_lt_le in Hcmp.
      exists b, eb, mb, qb.
      split; [by rewrite lookup_app_l|]. split; [done|]. split; [done|].
      intros j e' m' q' Hj Hq'.
      destruct (Hsplit j e' m' q' Hj Hq') as [Hlt | [-> ->]].
      * rewrite lookup_app_l in Hj by done. by eapply Hbest.
      * split; [done|lia].
Qed.

Lemma checkpoints_epochs (step : Z) (m : model_state) (blocks : list Z) :
  (checkpoints train_batches num_epoch step m blocks).*1
  = (λ i, Z.min num_epoch (i + step)) <$> blocks.
Proof.
  revert m. induction blocks as [|i blocks IH]; intros m; [done|].
  cbn [checkpoints fmap list_fmap fst]. f_equal. apply IH.
Qed.
End TrainLoopFacts.

(** A file keeps the state saved under its name unless a later checkpoint
    takes the name. *)
Lemma saved_not_overwritten {model_state : Type} (cps : list (Z * model_state))
    (d : gmap Z model_state) (b : nat) (e : Z) (m : model_state) :
  NoDup cps.*1 →
  cps !! b = Some (e, m) →
  foldl (λ d c, <[c.1 := c.2]> d) d cps !! e = Some m.
Proof.
  assert (∀ (l : list (Z * model_state)) (d0 : gmap Z model_state), e ∉ l.*1 →
            foldl (λ d c, <[c.1 := c.2]> d) d0 l !! e = d0 !! e) as Hout.
  { induction l as [|[e' m'] l IHl]; intros d0 Hnot; [done|].
    cbn [foldl]. rewrite fmap_cons in Hnot. apply not_elem_of_cons in Hnot as [Hne Hl].
    rewrite IHl by done. by apply lookup_insert_ne. }
  revert d b. induction cps as [|[e' m'] cps IH]; intros d b Hnd Hb; [done|].
  rewrite fmap_cons in Hnd. apply NoDup_cons in Hnd as [Hnot Hnd].
  destruct b as [|b]; cbn [foldl].
  - injection Hb as -> ->. rewrite Hout by done. apply lookup_insert_eq.
  - apply (IH _ b); [done | exact Hb].
Qed.

(** The epochs that name the checkpoints of a run are pairwise distinct. *)
Lemma block_epochs_NoDup (num_epoch : Z) (blocks : list Z) :
  0 < num_epoch →
  py_range3 0 num_epoch (ceil_div10 num_epoch) = Ok blocks →
  blocks ≠ []
  ∧ NoDup ((λ i, Z.min num_epoch (i + ceil_div10 num_epoch)) <$> blocks).
Proof.
  intros Hn. unfold py_range3.
  assert (1 ≤ ceil_div10 num_epoch) as Hstep.
  { unfold ceil_div10.
    pose proof (Z.div_lt_upper_bound (- num_epoch) 10 0 ltac:(lia) ltac:(lia)). lia. }
  set (step := ceil_div10 num_epoch) in *.
  destruct (Z.eqb_spec step 0) as [?|_]; [lia|].
  destruct (Z.ltb_spec 0 step) as [_|?]; [|lia].
  intros [= <-].
  set (count := (num_epoch - 0 + step - 1) / step).
  assert (1 ≤ count) as Hc1.
  { apply Z.div_le_lower_bound; lia. }
  assert ((count - 1) * step < num_epoch) as Hlast.
  { pose proof (Z.mul_div_le (num_epoch - 0 + step - 1) step ltac:(lia)) as Hm.
    fold count in Hm. lia. }
  split.
  - destruct (Z.to_nat count) eqn:E; [lia|done].
  - rewrite <- list_fmap_compose. apply NoDup_fmap_2_strong; [|apply NoDup_seq].
    intros x y Hx%elem_of_seq Hy%elem_of_seq. simpl.
    assert (∀ k : nat, (k < Z.to_nat count)%nat → (Z.of_nat k) * step < num_epoch) as Hk.
    { intros k Hklt. nia. }
    intros Heq. destruct (decide (x < y)%nat) as [Hxy|Hxy].
    + pose proof (Hk y ltac:(lia)). nia.
    + destruct (decide (y < x)%nat) as [Hyx|Hyx]; [|lia].
      pose proof (Hk x ltac:(lia)). nia.
Qed.

(** C3.  A run with [num_epoch > 0] whose epochs have at least one
    mini-batch and whose evaluations return a number goes through its
    blocks, compares every block's MRR with the running best by a strict
    [>], and ends by loading the checkpoint of the first block whose MRR is
    maximal: that state is the model handed back, its MRR is at least the
    MRR of every block and strictly above the MRR of every earlier block, so
    a later block with an equal MRR does not replace it. *)
Theorem C3_returns_first_best_checkpoint {model_state : Type}
    (train_batches : model_state → Z → model_state * nat)
    (evaluate : model_state → result tfloat)
    (num_epoch : Z) (m0 : model_state) (dir0 : gmap Z model_state) :
  0 < num_epoch →
  (∀ m epoch, (train_batches m epoch).2 ≠ 0%nat) →
  (∀ m, ∃ q, evaluate m = Ok (Fin q)) →
  ∃ (blocks : list Z) (b : nat) (e : Z) (m : model_state) (q : Qc)
    (dir : gmap Z model_state),
    py_range3 0 num_epoch (ceil_div10 num_epoch) = Ok blocks
    ∧ checkpoints train_batches num_epoch (ceil_div10 num_epoch) m0 blocks !! b
      = Some (e, m)
    ∧ evaluate m = Ok (Fin q)
    ∧ train_and_validate train_batches evaluate num_epoch m0 dir0 = Ok (m, dir)
    ∧ dir !! e = Some m
    ∧ ∀ (j : nat) (e' : Z) (m' : model_state) (q' : Qc),
        checkpoints train_batches num_epoch (ceil_div10 num_epoch) m0 blocks !! j
        = Some (e', m') →
        evaluate m' = Ok (Fin q') →
        (q' <= q)%Qc ∧ ((j < b)%nat → (q' < q)%Qc).
Proof.
  intros Hn Hbatches Hfin.
  destruct (py_range3 0 num_epoch (ceil_div10 num_epoch)) as [blocks|err] eqn:Hblocks;
    cycle 1.
  { unfold py_range3 in Hblocks.
    destruct (Z.eqb_spec (ceil_div10 num_epoch) 0) as [Hz|_]; [|done].
    unfold ceil_div10 in Hz.
    pose proof (Z.div_lt_upper_bound (- num_epoch) 10 0 ltac:(lia) ltac:(lia)). lia. }
  destruct (block_epochs_NoDup num_epoch blocks Hn Hblocks) as [Hne Hnd].
  set (step := ceil_div10 num_epoch) in *.
  set (cps := checkpoints train_batches num_epoch step m0 blocks).
  assert (cps ≠ []) as Hcps.
  { subst cps. destruct blocks; done. }
  destruct (pick_fold_first_best evaluate Hfin cps Hcps)
    as (b & e & m & q & Hb & Hq & Hfold & Hbest).
  destruct (foldM_block train_batches evaluate num_epoch Hbatches Hfin step blocks
              (loop_init m0 dir0)) as (st & Hst & Hdir & Hpick).
  cbn [loop_init model output_dir best_result best_epoch] in Hdir, Hpick.
  fold cps in Hdir, Hpick. rewrite Hfold in Hpick. injection Hpick as Hbr Hbe.
  assert (output_dir st !! e = Some m) as Hsaved.
  { rewrite Hdir. apply (saved_not_overwritten cps dir0 b); [|done].
    subst cps. by rewrite checkpoints_epochs. }
  exists blocks, b, e, m, q, (output_dir st).
  split; [done|]. split; [done|]. split; [done|].
  split; [|split; [done|exact Hbest]].
  unfold train_and_validate.
  destruct (Z.eqb_spec num_epoch 0) as [?|_]; [lia|].
  fold step. rewrite Hblocks. cbn [rbind]. rewrite Hst. cbn [rbind].
  by rewrite Hbe, Hsaved.
Qed.

Lemma C3_witness :
  ∃ (blocks : list Z) (b : nat) (e : Z) (m : Z) (q : Qc) (dir : gmap Z Z),
    py_range3 0 3 (ceil_div10 3) = Ok blocks
    ∧ checkpoints (λ m _, (m + 1, 1%nat)) 3 (ceil_div10 3) 0 blocks !! b = Some (e, m)
    ∧ demo_evaluate m = Ok (Fin q)
    ∧ train_and_validate (λ m _, (m + 1, 1%nat)) demo_evaluate 3 0 ∅ = Ok (m, dir)
    ∧ dir !! e = Some m
    ∧ ∀ (j : nat) (e' : Z) (m' : Z) (q' : Qc),
        checkpoints (λ m _, (m + 1, 1%nat)) 3 (ceil_div10 3) 0 blocks !! j = Some (e', m') →
        demo_evaluate m' = Ok (Fin q') →
        (q' <= q)%Qc ∧ ((j < b)%nat → (q' < q)%Qc).
Proof.
  apply (C3_returns_first_best_checkpoint (λ m _, (m + 1, 1%nat)) demo_evaluate 3 0 ∅).
  - lia.
  - intros m epoch. simpl. lia.
  - intros m. eexists. reflexivity.
Defined.

(** In that run the state handed back is the second checkpoint, not the
    last; when all three blocks score the same it is the first. *)
Example train_and_validate_demo_best :
  match train_and_validate (λ m _, (m + 1, 1%nat)) demo_evaluate 3 0 ∅ with
  | Ok (m, _) => m = 2
  | Err _ => False
  end.
Proof. vm_compute. reflexivity. Qed.

Example train_and_validate_demo_tie :
  match train_and_validate (λ m _, (m + 1, 1%nat)) (λ _, Ok (Fin (Q2Qc 1))) 3 0 ∅ with
  | Ok (m, _) => m = 1
  | Err _ => False
  end.
Proof. vm_compute. reflexivity. Qed.

(** ** The mini-batch loss *)

Lemma sequence_result_ok {A : Type} (l : list A) :
  sequence_result (Ok <$> l) = Ok l.
Proof.
  induction l as [|x l IH]; [done|].
  change (sequence_result (Ok <$> x :: l))
    with (let? l' := sequence_result (Ok <$> l) in Ok (x :: l')).
  by rewrite IH.
Qed.

Lemma target_of_rows (pred : list (list R)) :
  Forall (λ row, row ≠ []) pred →
  target_of pred = Ok ((λ row, 1%R :: ((λ _, 0%R) <$> drop 1 row)) <$> pred).
Proof.
  intros Hne. unfold target_of. rewrite <- sequence_result_ok. f_equal.
  rewrite <- !list_fmap_compose. apply list_fmap_ext.
  intros i row Hrow. eapply Forall_lookup_1 in Hne; [|exact Hrow].
  by destruct row.
Qed.

Lemma neg_weight_of_rows (temperature : R) (N : Z) (pred : list (list R)) :
  Forall (λ row, row ≠ []) pred →
  (0 < temperature)%R ∨ N ≠ 0 →
  neg_weight_of temperature N pred = Ok (row_weights temperature N <$> pred).
Proof.
  intros Hne HN. unfold neg_weight_of, row_weights.
  destruct (Rlt_dec 0 temperature) as [HT|HT].
  - f_equal. rewrite zip_with_fmap_l, zip_with_diag. apply list_fmap_ext.
    intros i row Hrow. eapply Forall_lookup_1 in Hne; [|exact Hrow].
    by destruct row.
  - destruct HN as [?|HN]; [done|].
    destruct (Z.eqb_spec N 0) as [?|_]; [done|]. f_equal.
    rewrite <- list_fmap_compose. apply list_fmap_ext.
    intros i row Hrow. eapply Forall_lookup_1 in Hne; [|exact Hrow].
    destruct row as [|x xs]; [done|]. simpl. unfold set_cols_from1. simpl.
    f_equal. unfold drop.
    change (list_fmap R R (λ _ : R, 1%R) xs) with ((λ _ : R, 1%R) <$> xs).
    by rewrite <- list_fmap_compose.
Qed.







(** * Further properties of the metric loop *)

(** ** The dictionary and the log *)

Lemma metric_loop_trace (ag : aggregates) (names : list string) (st st' : metric_state) :
  metric_loop ag names st = Ok st' →
  ∃ l : list (string * tfloat),
    reported st' = reported st ++ l
    ∧ l.*1 = names
    ∧ metrics st' = list_to_map (reverse l) ∪ metrics st
    ∧ score_var st' = from_option (λ x, Some x.2) (score_var st) (last l).
Proof.
  revert st. induction names as [|m names IH]; intros st Hrun.
  - injection Hrun as <-. exists []. rewrite app_nil_r.
    split; [done|]. split; [done|]. split; [|done].
    change (list_to_map (reverse [])) with (∅ : gmap string tfloat).
    by rewrite (left_id_L ∅ (∪)).
  - cbn [metric_loop] in Hrun.
    destruct (metric_pass ag (score_var st) m) as [score|e]; [|done].
    cbn [rbind] in Hrun. apply IH in Hrun as (l & Hrep & Hnames & Hmap & Hvar).
    cbn [reported metrics score_var] in *.
    exists ((m, score) :: l). split; [by rewrite Hrep, <- app_assoc|].
    split; [by rewrite fmap_cons, Hnames|]. split.
    + rewrite Hmap, reverse_cons, list_to_map_app.
      rewrite (insert_union_singleton_l (metrics st)).
      by rewrite <- (assoc_L (∪)).
    + rewrite Hvar. destruct l as [|x l']; [done|].
      rewrite (last_cons_cons (m, score)).
      destruct (last (x :: l')) eqn:E; [done|]. by apply last_None in E.
Qed.

(** X1.  When the loop over the requested names ends without an error, the
    log lists the names in the order requested, the dictionary has exactly
    the requested names as keys, and the entry of a name is the score logged
    for it last. *)
Theorem metric_loop_dictionary (ag : aggregates) (names : list string)
    (st : metric_state) :
  metric_loop ag names metric_init = Ok st →
  (reported st).*1 = names
  ∧ dom (metrics st) = list_to_set names
  ∧ metrics st = list_to_map (reverse (reported st))
  ∧ score_var st = (λ x, x.2) <$> last (reported st).
Proof.
  intros Hrun. apply metric_loop_trace in Hrun as (l & Hrep & Hnames & Hmap & Hvar).
  cbn [reported metrics score_var metric_init app] in *. subst l.
  rewrite (right_id_L ∅ (∪)) in Hmap.
  split; [done|]. split; [|split; [done|]].
  - rewrite Hmap, dom_list_to_map_L, fmap_reverse, Hnames.
    apply set_eq. intros x. rewrite !elem_of_list_to_set. apply elem_of_reverse.
  - rewrite Hvar. by destruct (last (reported st)).
Qed.

Lemma metric_loop_dictionary_witness :
  ∃ st, metric_loop demo_aggregates ["mr"; "hits@1"; "mr"] metric_init = Ok st
        ∧ dom (metrics st) = list_to_set ["mr"; "hits@1"; "mr"].
Proof.
  eexists. split; [reflexivity|].
  eapply (metric_loop_dictionary demo_aggregates ["mr"; "hits@1"; "mr"]).
  reflexivity.
Defined.

(** ** Names that match no branch *)

Lemma metric_loop_app (ag : aggregates) (names1 names2 : list string)
    (st : metric_state) :
  metric_loop ag (names1 ++ names2) st
  = let? st1 := metric_loop ag names1 st in metric_loop ag names2 st1.
Proof.
  revert st. induction names1 as [|m names1 IH]; intros st; [done|].
  cbn [app metric_loop]. destruct (metric_pass ag (score_var st) m); [|done].
  cbn [rbind]. apply IH.
Qed.

Lemma metric_pass_unknown (ag : aggregates) (prev : option tfloat) (metric : string) :
  unknown_name metric →
  metric_pass ag prev metric
  = match prev with
    | Some v => Ok v
    | None => Err (UnboundLocalError "score")
    end.
Proof.
  intros (Htail & Hmr & Hmrr & Hhits).
  rewrite metric_pass_combined by done. unfold score_of.
  apply String.eqb_neq in Hmr, Hmrr. by rewrite Hmr, Hmrr, Hhits.
Qed.

(** X2.  A requested name that is none of [mr], [mrr], [hits@...] and has no
    [-tail] in it is not refused.  First in the list it stops the evaluation
    with an [UnboundLocalError]; after other names it is logged and stored
    with the score of the name before it. *)
Theorem unknown_name_takes_previous_score (ag : aggregates)
    (names rest : list string) (metric : string) (st : metric_state) :
  unknown_name metric →
  metric_loop ag (metric :: rest) metric_init = Err (UnboundLocalError "score")
  ∧ (names ≠ [] →
     metric_loop ag names metric_init = Ok st →
     ∃ (prev_name : string) (prev_score : tfloat) (st' : metric_state),
       last (reported st) = Some (prev_name, prev_score)
       ∧ metric_loop ag (names ++ [metric]) metric_init = Ok st'
       ∧ metrics st' !! metric = Some prev_score
       ∧ reported st' = reported st ++ [(metric, prev_score)]).
Proof.
  intros Hunknown. split.
  - cbn [metric_loop metric_init score_var]. by rewrite metric_pass_unknown.
  - intros Hne Hrun.
    destruct (metric_loop_trace ag names metric_init st Hrun)
      as (l & Hrep & Hnames & _ & Hvar).
    cbn [reported score_var metric_init app] in Hrep, Hvar. subst l.
    assert (score_var st = (λ x, x.2) <$> last (reported st)) as Hvar'.
    { rewrite Hvar. by destruct (last (reported st)). }
    clear Hvar. rename Hvar' into Hvar.
    destruct (last (reported st)) as [[prev_name prev_score]|] eqn:Hlast; cycle 1.
    { apply last_None in Hlast. rewrite Hlast in Hnames. by subst names. }
    cbn [fmap option_fmap option_map snd] in Hvar.
    exists prev_name, prev_score. eexists. split; [done|].
    rewrite metric_loop_app, Hrun. cbn [rbind metric_loop].
    rewrite metric_pass_unknown, Hvar by done. cbn [rbind].
    split; [reflexivity|]. cbn [metrics reported].
    split; [apply lookup_insert_eq | done].
Qed.

Lemma unknown_name_takes_previous_score_witness :
  metric_loop demo_aggregates ["auc"; "mrr"] metric_init
  = Err (UnboundLocalError "score").
Proof.
  apply (unknown_name_takes_previous_score demo_aggregates [] ["mrr"] "auc" metric_init).
  repeat split; done.
Defined.

(** ** Names with a [-tail] suffix *)

(** X3.  A pass on [base-tail], [base] free of dashes, is the pass on [base]
    with the tail-only aggregates in the place of the combined ones: every
    metric has its tail-only variant, unknown names included. *)
Theorem tail_suffix_is_metric_on_tail_view (ag : aggregates) (prev : option tfloat)
    (base : string) :
  char_free "-" base = true →
  metric_pass ag prev (base +:+ "-tail") = metric_pass (tail_view ag) prev base.
Proof.
  intros Hfree. rewrite (metric_pass_combined (tail_view ag)); cycle 1.
  { by apply contains_tail_free. }
  unfold metric_pass. by rewrite route_tail.
Qed.

Lemma tail_suffix_is_metric_on_tail_view_witness :
  metric_pass demo_aggregates None ("hits@1_3" +:+ "-tail")
  = metric_pass (tail_view demo_aggregates) None "hits@1_3".
Proof.
  apply (tail_suffix_is_metric_on_tail_view demo_aggregates None "hits@1_3").
  reflexivity.
Defined.

(** ** Degenerate [hits@] names *)

Lemma string_app_assoc' (s1 s2 s3 : string) :
  (s1 +:+ s2) +:+ s3 = s1 +:+ (s2 +:+ s3).
Proof.
  induction s1 as [|a s1 IH]; [done|].
  change (String a ((s1 +:+ s2) +:+ s3) = String a (s1 +:+ (s2 +:+ s3))).
  by rewrite IH.
Qed.

(** X4.  Only the first two components of the text after [hits@] are read:
    [hits@K_S_rest] is scored as [hits@K_S], whatever [rest] is (free of
    dashes). *)
Theorem hits_name_third_component_ignored (ag : aggregates) (prev : option tfloat)
    (K M : nat) (rest : string) :
  char_free "-" rest = true →
  metric_pass ag prev (hits_sub_name K M +:+ String "_" rest)
  = metric_pass ag prev (hits_sub_name K M).
Proof.
  intros Hrest.
  pose proof (digits_char_free "-" (dec K) (or_introl eq_refl) (dec_digits K)) as HdK.
  pose proof (digits_char_free "_" (dec K) (or_intror eq_refl) (dec_digits K)) as HuK.
  pose proof (digits_char_free "-" (dec M) (or_introl eq_refl) (dec_digits M)) as HdM.
  pose proof (digits_char_free "_" (dec M) (or_intror eq_refl) (dec_digits M)) as HuM.
  rewrite metric_pass_hits_sub. unfold hits_sub_name.
  rewrite string_app_assoc', string_app_assoc'.
  change (String "_" (dec M) +:+ String "_" rest)
    with (String "_" (dec M +:+ String "_" rest)).
  rewrite metric_pass_combined; cycle 1.
  { apply hits_name_shape. rewrite char_free_app. cbn [char_free].
    rewrite char_free_app. cbn [char_free]. by rewrite HdK, HdM, Hrest. }
  rewrite score_of_hits, !split_on_app by done.
  cbv zeta. cbn [lookup list_lookup default length]. unfold Datatypes.id.
  rewrite !py_int_dec. cbn [rbind]. rewrite decide_True by lia.
  unfold finish_pass.
  by destruct (unbiased_hits _ _ _ _).
Qed.

Lemma hits_name_third_component_ignored_witness :
  metric_pass demo_aggregates None (hits_sub_name 1 3 +:+ String "_" "x y")
  = metric_pass demo_aggregates None (hits_sub_name 1 3).
Proof.
  apply (hits_name_third_component_ignored demo_aggregates None 1 3 "x y").
  reflexivity.
Defined.

Lemma fp_rate_of_same_length (_ranking _num_neg : list Z) :
  length _ranking = length _num_neg →
  ∃ fp, fp_rate_of _ranking _num_neg = Ok fp ∧ length fp = length _ranking.
Proof.
  intros Hlen. unfold fp_rate_of, tdiv.
  rewrite length_fmap, decide_True by done. eexists. split; [done|].
  rewrite length_zip_with, length_fmap. lia.
Qed.

(** X5.  With a threshold of zero the estimator's loop has no pass and the
    integer [0] it starts from has no [mean]: [hits@0_S] stops the
    evaluation with an [AttributeError], for every [S], before any
    factorial is taken. *)
Theorem hits_zero_threshold_attribute_error (ag : aggregates) (prev : option tfloat)
    (M : nat) :
  length (all_ranking ag) = length (all_num_negative ag) →
  metric_pass ag prev (hits_sub_name 0 M)
  = Err (AttributeError "'int' object has no attribute 'mean'").
Proof.
  intros Hlen. rewrite metric_pass_hits_sub. unfold unbiased_hits.
  destruct (fp_rate_of_same_length _ _ Hlen) as (fp & -> & _).
  done.
Qed.

Lemma hits_zero_threshold_attribute_error_witness :
  metric_pass demo_aggregates None (hits_sub_name 0 500)
  = Err (AttributeError "'int' object has no attribute 'mean'").
Proof.
  apply (hits_zero_threshold_attribute_error demo_aggregates None 500).
  reflexivity.
Defined.

(** ** The range of the exact metrics *)

Lemma Qc_of_Z_le (a b : Z) : a ≤ b → (Qc_of_Z a <= Qc_of_Z b)%Qc.
Proof.
  intros Hab. unfold Qcle, Qc_of_Z. simpl. rewrite !Qred_correct.
  unfold Qle. simpl. lia.
Qed.

Lemma Qc_of_Z_lt (a b : Z) : a < b → (Qc_of_Z a < Qc_of_Z b)%Qc.
Proof.
  intros Hab. unfold Qclt, Qc_of_Z. simpl. rewrite !Qred_correct.
  unfold Qlt. simpl. lia.
Qed.

Lemma Qc_sum_bounds (l : list Qc) (a b : Qc) :
  Forall (λ x, a <= x ∧ x <= b)%Qc l →
  (Qc_of_Z (Z.of_nat (length l)) * a <= Qc_sum l
   ∧ Qc_sum l <= Qc_of_Z (Z.of_nat (length l)) * b)%Qc.
Proof.
  induction 1 as [|x l [Hax Hxb] _ [IHa IHb]].
  - unfold Qc_sum. simpl. change (Qc_of_Z 0) with 0%Qc.
    rewrite !Qcmult_0_l. split; apply Qcle_refl.
  - cbn [length]. rewrite Nat2Z.inj_succ, <- Z.add_1_l, Qc_of_Z_add.
    change (Qc_of_Z 1) with 1%Qc. unfold Qc_sum in *. cbn [foldr].
    rewrite !Qcmult_plus_distr_l, !Qcmult_1_l.
    split; by apply Qcplus_le_compat.
Qed.

Lemma length_pos_Qc {A : Type} (l : list A) :
  l ≠ [] → (0 < Qc_of_Z (Z.of_nat (length l)))%Qc.
Proof.
  intros Hne. change 0%Qc with (Qc_of_Z 0). apply Qc_of_Z_lt.
  destruct l; [done|]. simpl. lia.
Qed.

(** The mean of rationals between [a] and [b] lies between [a] and [b]. *)
Lemma mean_of_bounds (l : list Qc) (a b : Qc) :
  l ≠ [] →
  Forall (λ x, a <= x ∧ x <= b)%Qc l →
  (a <= mean_of l ∧ mean_of l <= b)%Qc.
Proof.
  intros Hne Hl. destruct (Qc_sum_bounds l a b Hl) as [Ha Hb].
  pose proof (length_pos_Qc l Hne) as Hn. unfold mean_of.
  set (n := Qc_of_Z (Z.of_nat (length l))) in *.
  assert (n ≠ 0%Qc) as Hn0 by (by apply Qclt_not_eq in Hn).
  split.
  - apply (Qcmult_le_mono_pos_r _ _ n Hn).
    replace (Qc_sum l / n * n)%Qc with (Qc_sum l) by (by field).
    by rewrite Qcmult_comm.
  - apply (Qcmult_le_mono_pos_r _ _ n Hn).
    replace (Qc_sum l / n * n)%Qc with (Qc_sum l) by (by field).
    by rewrite (Qcmult_comm b).
Qed.

Lemma Qc_sum_pos (l : list Qc) :
  l ≠ [] → Forall (λ x, 0 < x)%Qc l → (0 < Qc_sum l)%Qc.
Proof.
  intros Hne Hl. induction Hl as [|x l Hx Hl IH]; [done|].
  unfold Qc_sum in *. cbn [foldr].
  destruct l as [|y l'].
  - simpl. by rewrite Qcplus_0_r.
  - apply Qcplus_pos_pos; [done|]. by apply IH.
Qed.

Lemma reciprocal_rank_range (r : Z) :
  valid_rank r → (0 < Q2Qc 1 / Qc_of_Z r ∧ Q2Qc 1 / Qc_of_Z r <= 1)%Qc.
Proof.
  unfold valid_rank. intros Hr.
  assert (0 < Qc_of_Z r)%Qc as Hpos.
  { change 0%Qc with (Qc_of_Z 0). apply Qc_of_Z_lt. lia. }
  assert (Qc_of_Z r ≠ 0%Qc) as Hnz by (by apply Qclt_not_eq in Hpos).
  split.
  - unfold Qcdiv. rewrite Qcmult_1_l. by apply Qcinv_pos.
  - apply (Qcmult_le_mono_pos_r _ _ (Qc_of_Z r) Hpos).
    replace (Q2Qc 1 / Qc_of_Z r * Qc_of_Z r)%Qc with 1%Qc by (by field).
    rewrite Qcmult_1_l. change 1%Qc with (Qc_of_Z 1). apply Qc_of_Z_le. lia.
Qed.

(** X6.  On a non-empty aggregate of valid ranks the scores of [mrr] and
    [mr] are numbers with [0 < mrr <= 1] and [mr >= 1]. *)
Theorem mrr_and_mr_range (ag : aggregates) (prev : option tfloat) :
  all_ranking ag ≠ [] →
  Forall valid_rank (all_ranking ag) →
  (∃ q : Qc, metric_pass ag prev "mrr" = Ok (Fin q) ∧ (0 < q)%Qc ∧ (q <= 1)%Qc)
  ∧ (∃ q : Qc, metric_pass ag prev "mr" = Ok (Fin q) ∧ (1 <= q)%Qc).
Proof.
  intros Hne Hr. split.
  - rewrite metric_pass_combined by done. unfold score_of, finish_pass.
    cbn [String.eqb Ascii.eqb Bool.eqb rbind].
    rewrite mrr_score_fin; [|done|]; cycle 1.
    { eapply Forall_impl; [exact Hr|]. unfold valid_rank. simpl. lia. }
    eexists. split; [done|].
    assert (Forall (λ x, 0 < x ∧ x <= 1)%Qc
              ((λ r, Q2Qc 1 / Qc_of_Z r)%Qc <$> all_ranking ag)) as Hrange.
    { apply Forall_fmap. eapply Forall_impl; [exact Hr|].
      intros r Hv. by apply reciprocal_rank_range. }
    assert ((λ r, Q2Qc 1 / Qc_of_Z r)%Qc <$> all_ranking ag ≠ []) as Hne'.
    { by destruct (all_ranking ag). }
    split.
    + unfold mean_of, Qcdiv. apply Qcmult_pos_pos.
      * apply Qc_sum_pos; [done|]. eapply Forall_impl; [exact Hrange|].
        by intros x [? _].
      * apply Qcinv_pos. by apply length_pos_Qc.
    + apply (mean_of_bounds _ 0%Qc 1%Qc); [done|].
      eapply Forall_impl; [exact Hrange|]. intros x [Hx ?].
      split; [by apply Qclt_le_weak|done].
  - rewrite metric_pass_combined by done. unfold score_of, finish_pass, mr_score.
    cbn [String.eqb Ascii.eqb Bool.eqb rbind]. unfold to_float.
    change (λ z, Fin (Qc_of_Z z)) with (Fin ∘ Qc_of_Z).
    rewrite (list_fmap_compose Qc_of_Z Fin), tf_mean_fin by (by destruct (all_ranking ag)).
    eexists. split; [done|].
    apply (mean_of_bounds _ 1%Qc (Qc_of_Z (2 ^ 63))); [by destruct (all_ranking ag)|].
    apply Forall_fmap. eapply Forall_impl; [exact Hr|].
    intros r [Hlo Hhi]. simpl. split.
    + change 1%Qc with (Qc_of_Z 1). by apply Qc_of_Z_le.
    + apply Qc_of_Z_le. lia.
Qed.

Lemma mrr_and_mr_range_witness :
  (∃ q : Qc, metric_pass demo_aggregates None "mrr" = Ok (Fin q)
             ∧ (0 < q)%Qc ∧ (q <= 1)%Qc)
  ∧ (∃ q : Qc, metric_pass demo_aggregates None "mr" = Ok (Fin q) ∧ (1 <= q)%Qc).
Proof.
  apply (mrr_and_mr_range demo_aggregates None).
  - simpl. discriminate.
  - exact demo_valid_ranks.
Defined.

Lemma hits_count_mono (K K' : Z) (l : list Z) :
  K ≤ K' →
  (length (filter (λ r, (r ≤ K)%Z) l) ≤ length (filter (λ r, (r ≤ K')%Z) l))%nat.
Proof.
  intros HK.
  rewrite <- (list_filter_filter_l (λ r, r ≤ K) (λ r, r ≤ K') l) by (intros; lia).
  apply length_filter.
Qed.

Lemma ratio_mono (a b n : Z) :
  0 < n → a ≤ b → (Qc_of_Z a / Qc_of_Z n <= Qc_of_Z b / Qc_of_Z n)%Qc.
Proof.
  intros Hn Hab. unfold Qcdiv. apply Qcmult_le_mono_nonneg_r.
  - apply Qclt_le_weak, Qcinv_pos. change 0%Qc with (Qc_of_Z 0).
    by apply Qc_of_Z_lt.
  - by apply Qc_of_Z_le.
Qed.

Lemma filter_rank_all (K : Z) (l : list Z) :
  Forall (λ r, r ≤ K) l → filter (λ r, r ≤ K) l = l.
Proof.
  induction 1 as [|r l Hr _ IH]; [done|].
  rewrite filter_cons, decide_True by done. by rewrite IH.
Qed.

Lemma filter_rank_none (K : Z) (l : list Z) :
  Forall (λ r, K < r) l → filter (λ r, r ≤ K) l = [].
Proof.
  induction 1 as [|r l Hr _ IH]; [done|].
  rewrite filter_cons, decide_False by lia. exact IH.
Qed.

(** X7.  On a non-empty aggregate the score of [hits@K] is a number between
    0 and 1 that does not decrease with [K]; it is 1 as soon as no rank
    exceeds [K], and 0 for [K = 0] when the ranks are valid. *)
Theorem hits_range_and_monotone (ag : aggregates) (prev : option tfloat) (K K' : nat) :
  all_ranking ag ≠ [] →
  (K ≤ K')%nat →
  Z.of_nat K' < 2 ^ 63 →
  ∃ q q' : Qc,
    metric_pass ag prev ("hits@" +:+ dec K) = Ok (Fin q)
    ∧ metric_pass ag prev ("hits@" +:+ dec K') = Ok (Fin q')
    ∧ (0 <= q)%Qc ∧ (q <= q')%Qc ∧ (q' <= 1)%Qc
    ∧ (Forall (λ r, r ≤ Z.of_nat K) (all_ranking ag) → q = 1%Qc)
    ∧ (Forall valid_rank (all_ranking ag) → K = 0%nat → q = 0%Qc).
Proof.
  intros Hne HK HK'.
  rewrite !metric_pass_hits by lia. rewrite !exact_hits_fin by done.
  assert (0 < Z.of_nat (length (all_ranking ag))) as Hn.
  { destruct (all_ranking ag); [done|]. simpl. lia. }
  do 2 eexists. split; [done|]. split; [done|].
  split; [|split; [|split; [|split]]].
  - replace 0%Qc with (Qc_of_Z 0 / Qc_of_Z (Z.of_nat (length (all_ranking ag))))%Qc
      by (unfold Qcdiv; apply Qcmult_0_l).
    apply ratio_mono; lia.
  - apply ratio_mono; [done|]. apply inj_le, hits_count_mono. lia.
  - replace 1%Qc with (Qc_of_Z (Z.of_nat (length (all_ranking ag)))
                       / Qc_of_Z (Z.of_nat (length (all_ranking ag))))%Qc.
    + apply ratio_mono; [done|]. apply inj_le, length_filter.
    + unfold Qcdiv. apply Qcmult_inv_r, Qc_of_Z_nonzero. lia.
  - intros Hall. rewrite filter_rank_all by done.
    unfold Qcdiv. apply Qcmult_inv_r, Qc_of_Z_nonzero. lia.
  - intros Hr ->. rewrite filter_rank_none; cycle 1.
    { eapply Forall_impl; [exact Hr|]. unfold valid_rank. simpl. lia. }
    unfold Qcdiv. apply Qcmult_0_l.
Qed.

Lemma hits_range_and_monotone_witness :
  ∃ q q' : Qc,
    metric_pass demo_aggregates None ("hits@" +:+ dec 1) = Ok (Fin q)
    ∧ metric_pass demo_aggregates None ("hits@" +:+ dec 3) = Ok (Fin q')
    ∧ (0 <= q)%Qc ∧ (q <= q')%Qc ∧ (q' <= 1)%Qc.
Proof.
  destruct (hits_range_and_monotone demo_aggregates None 1 3)
    as (q & q' & H1 & H2 & H3 & H4 & H5 & _).
  - simpl. discriminate.
  - lia.
  - lia.
  - exists q, q'. repeat split; assumption.
Defined.

(** ** Exact metrics on an empty aggregate *)

(** X8.  On an aggregate without a query no exact metric raises: [mr],
    [mrr] and [hits@K] are the mean of an empty tensor, NaN. *)
Theorem empty_aggregate_scores_nan (ag : aggregates) (prev : option tfloat) (K : nat) :
  all_ranking ag = [] →
  Z.of_nat K < 2 ^ 63 →
  metric_pass ag prev "mr" = Ok NaN
  ∧ metric_pass ag prev "mrr" = Ok NaN
  ∧ metric_pass ag prev ("hits@" +:+ dec K) = Ok NaN.
Proof.
  intros Hempty HK. split; [|split].
  - rewrite metric_pass_combined by done. unfold score_of, finish_pass.
    cbn [String.eqb Ascii.eqb Bool.eqb rbind]. by rewrite Hempty.
  - rewrite metric_pass_combined by done. unfold score_of, finish_pass.
    cbn [String.eqb Ascii.eqb Bool.eqb rbind]. by rewrite Hempty.
  - rewrite metric_pass_hits by done. by rewrite Hempty.
Qed.

Lemma empty_aggregate_scores_nan_witness :
  metric_pass {| all_ranking := []; all_num_negative := [];
                 all_ranking_t := []; all_num_negative_t := [] |} None "mrr"
  = Ok NaN.
Proof.
  destruct (empty_aggregate_scores_nan
              {| all_ranking := []; all_num_negative := [];
                 all_ranking_t := []; all_num_negative_t := [] |} None 1)
    as (_ & H & _); [reflexivity | lia | exact H].
Defined.

(** * Further properties of the aggregation *)


(** ** The value of [test] across the world *)



(** ** A worker without a batch *)




(** ** The tail-only vectors inside the combined ones *)






(** * Further properties of the training loop *)

(** ** The blocks of a run *)

Lemma ceil_div10_bounds (n : Z) :
  0 < n → 1 ≤ ceil_div10 n ∧ n ≤ 10 * ceil_div10 n < n + 10.
Proof.
  intros Hn. unfold ceil_div10.
  pose proof (Z.div_mod (- n) 10 ltac:(lia)) as Hdm.
  pose proof (Z.mod_pos_bound (- n) 10 ltac:(lia)) as Hmod. lia.
Qed.

(** The outer loop goes through [count] blocks, the starts [0, step, ...]. *)
Lemma range_blocks (n : Z) :
  0 < n →
  ∃ count : nat,
    py_range3 0 n (ceil_div10 n)
    = Ok ((λ k : nat, 0 + Z.of_nat k * ceil_div10 n) <$> seq 0 count)
    ∧ (1 ≤ count ≤ 10)%nat
    ∧ (Z.of_nat count - 1) * ceil_div10 n < n ≤ Z.of_nat count * ceil_div10 n.
Proof.
  intros Hn. destruct (ceil_div10_bounds n Hn) as [Hstep Hten].
  unfold py_range3. set (step := ceil_div10 n) in *.
  destruct (Z.eqb_spec step 0) as [?|_]; [lia|].
  destruct (Z.ltb_spec 0 step) as [_|?]; [|lia].
  set (count := (n - 0 + step - 1) / step).
  pose proof (Z.div_mod (n - 0 + step - 1) step ltac:(lia)) as Hdm.
  pose proof (Z.mod_pos_bound (n - 0 + step - 1) step ltac:(lia)) as Hmod.
  fold count in Hdm.
  assert (1 ≤ count) as Hc1 by nia.
  assert (count ≤ 10) as Hc10 by nia.
  exists (Z.to_nat count). split; [done|]. split; [lia|].
  rewrite Z2Nat.id by lia. nia.
Qed.

Lemma py_range2_app (a b c : Z) :
  a ≤ b → b ≤ c → py_range2 a b ++ py_range2 b c = py_range2 a c.
Proof.
  intros Hab Hbc. unfold py_range2.
  replace (Z.to_nat (c - a)) with (Z.to_nat (b - a) + Z.to_nat (c - b))%nat by lia.
  rewrite seq_app, fmap_app. f_equal.
  replace (seq (0 + Z.to_nat (b - a)) (Z.to_nat (c - b)))
    with (Nat.add (Z.to_nat (b - a)) <$> seq 0 (Z.to_nat (c - b)))
    by (rewrite fmap_add_seq; f_equal; lia).
  rewrite <- list_fmap_compose.
  apply list_fmap_ext. intros i k _. simpl. lia.
Qed.

Lemma py_range2_empty (a b : Z) : b ≤ a → py_range2 a b = [].
Proof. intros H. unfold py_range2. by replace (Z.to_nat (b - a)) with 0%nat by lia. Qed.

Section TrainLoopRuns.
Context {model_state : Type}.
Variable train_batches : model_state → Z → model_state * nat.
Variable evaluate : model_state → result tfloat.
Variable num_epoch : Z.

(** The last checkpoint of consecutive blocks holds the state after all
    their epochs. *)
Lemma checkpoints_last (step : Z) (c a : nat) (m : model_state) :
  1 ≤ step →
  (Z.of_nat a + Z.of_nat c) * step < num_epoch →
  last (checkpoints train_batches num_epoch step m
          ((λ k : nat, 0 + Z.of_nat k * step) <$> seq a (S c)))
  = Some (Z.min num_epoch ((Z.of_nat a + Z.of_nat c + 1) * step),
          foldl (λ m epoch, (train_batches m epoch).1) m (py_range2 (Z.of_nat a * step)
                       (Z.min num_epoch ((Z.of_nat a + Z.of_nat c + 1) * step)))).
Proof.
  intros Hstep. revert a m. induction c as [|c IH]; intros a m Hlast.
  - cbn [seq fmap list_fmap checkpoints last].
    replace (0 + Z.of_nat a * step + step) with ((Z.of_nat a + Z.of_nat 0 + 1) * step) by lia.
    by replace (0 + Z.of_nat a * step) with (Z.of_nat a * step) by lia.
  - change (seq a (S (S c))) with (a :: seq (S a) (S c)).
    rewrite fmap_cons. cbn [checkpoints].
    rewrite last_cons, IH by lia.
    replace (Z.of_nat (S a) + Z.of_nat c + 1) with (Z.of_nat a + Z.of_nat (S c) + 1) by lia.
    cbn [from_option]. f_equal. f_equal.
    rewrite <- foldl_app. f_equal.
    rewrite (Z.min_r num_epoch (0 + Z.of_nat a * step + step)) by nia.
    replace (0 + Z.of_nat a * step + step) with (Z.of_nat (S a) * step) by lia.
    replace (0 + Z.of_nat a * step) with (Z.of_nat a * step) by lia.
    apply py_range2_app; [nia|].
    apply Z.min_glb; nia.
Qed.

(** Files whose name no checkpoint takes are left as they were. *)
Lemma foldl_insert_other (cps : list (Z * model_state)) (d : gmap Z model_state) (k : Z) :
  k ∉ cps.*1 → foldl (λ d c, <[c.1 := c.2]> d) d cps !! k = d !! k.
Proof.
  revert d. induction cps as [|[e m] cps IH]; intros d Hnot; [done|].
  cbn [foldl]. rewrite fmap_cons in Hnot. apply not_elem_of_cons in Hnot as [Hne Hl].
  rewrite IH by done. by apply lookup_insert_ne.
Qed.

Lemma foldl_insert_dom (cps : list (Z * model_state)) (d : gmap Z model_state) :
  dom (foldl (λ d c, <[c.1 := c.2]> d) d cps) = dom d ∪ list_to_set cps.*1.
Proof.
  revert d. induction cps as [|[e m] cps IH]; intros d.
  - simpl. by rewrite (right_id_L ∅ (∪)).
  - cbn [foldl]. rewrite IH, dom_insert_L, fmap_cons. cbn [fst list_to_set].
    by rewrite (comm_L (∪) {[e]} (dom d)), (assoc_L (∪)).
Qed.

Hypothesis batches_nonempty : ∀ m epoch, (train_batches m epoch).2 ≠ 0%nat.

(** A run whose evaluations never compare above the best so far. *)
Lemma foldM_block_never_better (step : Z) (blocks : list Z) (st : loop_state) :
  (∀ m, evaluate m = Ok NaN ∨ evaluate m = Ok (Inf true)) →
  best_result st = Inf true →
  ∃ st' : loop_state,
    foldM (block train_batches evaluate num_epoch step) blocks st = Ok st'
    ∧ best_result st' = Inf true
    ∧ best_epoch st' = best_epoch st
    ∧ output_dir st'
      = foldl (λ d c, <[c.1 := c.2]> d) (output_dir st)
          (checkpoints train_batches num_epoch step (model st) blocks).
Proof.
  intros Heval. revert st. induction blocks as [|i blocks IH]; intros st Hbest.
  - by exists st.
  - cbn [foldM checkpoints foldl]. unfold block at 1.
    rewrite (train_epochs_run train_batches batches_nonempty). cbn [rbind].
    set (m := foldl (λ m epoch, (train_batches m epoch).1) (model st) (py_range2 i (Z.min num_epoch (i + step)))).
    assert (∃ r, evaluate m = Ok r ∧ tf_gt r (best_result st) = false)
      as (r & Hr & Hgt).
    { rewrite Hbest. destruct (Heval m) as [-> | ->]; by eexists. }
    rewrite Hr. cbn [rbind]. rewrite Hgt. cbn [rbind].
    match goal with
    | |- ∃ st', foldM _ _ ?s = _ ∧ _ => destruct (IH s Hbest) as (st' & H1 & H2 & H3 & H4)
    end.
    exists st'. by rewrite H1, H2, H3, H4.
Qed.

Hypothesis evaluate_finite : ∀ m, ∃ q, evaluate m = Ok (Fin q).

(** A run of [num_epoch > 0] epochs: the state it loads and the directory
    it leaves. *)
Lemma train_and_validate_run (m0 : model_state) (dir0 : gmap Z model_state) :
  0 < num_epoch →
  ∃ (blocks : list Z) (b : nat) (e : Z) (m : model_state) (q : Qc),
    py_range3 0 num_epoch (ceil_div10 num_epoch) = Ok blocks
    ∧ checkpoints train_batches num_epoch (ceil_div10 num_epoch) m0 blocks !! b
      = Some (e, m)
    ∧ evaluate m = Ok (Fin q)
    ∧ train_and_validate train_batches evaluate num_epoch m0 dir0
      = Ok (m, foldl (λ d c, <[c.1 := c.2]> d) dir0
                 (checkpoints train_batches num_epoch (ceil_div10 num_epoch) m0 blocks))
    ∧ ∀ (j : nat) (e' : Z) (m' : model_state) (q' : Qc),
        checkpoints train_batches num_epoch (ceil_div10 num_epoch) m0 blocks !! j
        = Some (e', m') →
        evaluate m' = Ok (Fin q') → (q' <= q)%Qc.
Proof.
  intros Hn.
  destruct (range_blocks num_epoch Hn) as (count & Hblocks & Hcount & Hlast).
  set (blocks := (λ k : nat, 0 + Z.of_nat k * ceil_div10 num_epoch) <$> seq 0 count) in *.
  destruct (block_epochs_NoDup num_epoch blocks Hn Hblocks) as [Hne Hnd].
  set (step := ceil_div10 num_epoch) in *.
  set (cps := checkpoints train_batches num_epoch step m0 blocks).
  assert (cps ≠ []) as Hcps.
  { subst cps. destruct blocks; done. }
  destruct (pick_fold_first_best evaluate evaluate_finite cps Hcps)
    as (b & e & m & q & Hb & Hq & Hfold & Hbest).
  destruct (foldM_block train_batches evaluate num_epoch batches_nonempty
              evaluate_finite step blocks (loop_init m0 dir0)) as (st & Hst & Hdir & Hpick).
  cbn [loop_init model output_dir best_result best_epoch] in Hdir, Hpick.
  fold cps in Hdir, Hpick. rewrite Hfold in Hpick. injection Hpick as Hbr Hbe.
  assert (output_dir st !! e = Some m) as Hsaved.
  { rewrite Hdir. apply (saved_not_overwritten cps dir0 b); [|done].
    subst cps. by rewrite checkpoints_epochs. }
  exists blocks, b, e, m, q.
  split; [done|]. split; [done|]. split; [done|]. split.
  - unfold train_and_validate.
    destruct (Z.eqb_spec num_epoch 0) as [?|_]; [lia|].
    fold step. rewrite Hblocks. cbn [rbind]. rewrite Hst. cbn [rbind].
    by rewrite Hbe, Hsaved, Hdir.
  - intros j e' m' q' Hj Hq'. by destruct (Hbest j e' m' q' Hj Hq').
Qed.
End TrainLoopRuns.

(** ** Epoch counts the guard of line 39 lets through *)

(** X12.  Only [num_epoch == 0] returns at once.  For a negative count
    above -10 the step [math.ceil(num_epoch / 10)] is zero and the run ends
    with the [ValueError] of [range], before any training. *)
Theorem negative_epoch_count_is_range_error {model_state : Type}
    (train_batches : model_state → Z → model_state * nat)
    (evaluate : model_state → result tfloat)
    (num_epoch : Z) (m0 : model_state) (dir0 : gmap Z model_state) :
  -10 < num_epoch < 0 →
  train_and_validate train_batches evaluate num_epoch m0 dir0
  = Err (ValueError "range() arg 3 must not be zero").
Proof.
  intros Hn. unfold train_and_validate.
  destruct (Z.eqb_spec num_epoch 0) as [?|_]; [lia|].
  assert (ceil_div10 num_epoch = 0) as ->.
  { unfold ceil_div10. rewrite Z.div_small by lia. done. }
  done.
Qed.

Lemma negative_epoch_count_is_range_error_witness :
  train_and_validate (λ m _, (m + 1, 1%nat)) demo_evaluate (-3) 0 ∅
  = Err (ValueError "range() arg 3 must not be zero").
Proof.
  apply (negative_epoch_count_is_range_error (λ m _, (m + 1, 1%nat)) demo_evaluate (-3) 0 ∅).
  lia.
Defined.

(** ** An epoch without a mini-batch *)

(** X13.  When the first epoch collects no loss, the average of line 122
    divides by zero: the run ends with a [ZeroDivisionError], before any
    checkpoint or evaluation. *)
Theorem epoch_without_batch_divides_by_zero {model_state : Type}
    (train_batches : model_state → Z → model_state * nat)
    (evaluate : model_state → result tfloat)
    (num_epoch : Z) (m0 : model_state) (dir0 : gmap Z model_state) :
  0 < num_epoch →
  (train_batches m0 0).2 = 0%nat →
  train_and_validate train_batches evaluate num_epoch m0 dir0
  = Err (ZeroDivisionError "division by zero").
Proof.
  intros Hn Hzero. unfold train_and_validate.
  destruct (Z.eqb_spec num_epoch 0) as [?|_]; [lia|].
  destruct (range_blocks num_epoch Hn) as (count & -> & Hcount & Hlast).
  destruct (ceil_div10_bounds num_epoch Hn) as [Hstep _].
  destruct count as [|count]; [lia|].
  cbn [rbind seq fmap list_fmap foldM]. unfold block at 1.
  replace (0 + Z.of_nat 0 * ceil_div10 num_epoch) with 0 by lia.
  rewrite <- (py_range2_app 0 1) by lia.
  change (py_range2 0 1) with [0]. cbn [app foldM loop_init model].
  unfold train_epoch at 1. by rewrite Hzero.
Qed.

Lemma epoch_without_batch_divides_by_zero_witness :
  train_and_validate (λ m _, (m, 0%nat)) demo_evaluate 3 0 ∅
  = Err (ZeroDivisionError "division by zero").
Proof.
  apply (epoch_without_batch_divides_by_zero (λ m _, (m, 0%nat)) demo_evaluate 3 0 ∅).
  - lia.
  - reflexivity.
Defined.

(** ** A run whose evaluations never beat the initial best *)

(** X14.  The best result starts at minus infinity and is replaced on a
    strict [>] only.  When every evaluation returns NaN or minus infinity,
    no block is ever the best: the epoch stays at -1 and the run ends by
    loading [model_epoch_-1.pth], a file no block writes.  It fails with
    [FileNotFoundError] unless the directory held such a file before the
    run, whose state is then the model handed back. *)
Theorem run_without_improvement_loads_epoch_minus_one {model_state : Type}
    (train_batches : model_state → Z → model_state * nat)
    (evaluate : model_state → result tfloat)
    (num_epoch : Z) (m0 : model_state) (dir0 : gmap Z model_state) :
  0 < num_epoch →
  (∀ m epoch, (train_batches m epoch).2 ≠ 0%nat) →
  (∀ m, evaluate m = Ok NaN ∨ evaluate m = Ok (Inf true)) →
  ∃ dir : gmap Z model_state,
    train_and_validate train_batches evaluate num_epoch m0 dir0
    = match dir0 !! (-1) with
      | Some state => Ok (state, dir)
      | None => Err (FileNotFoundError "model_epoch_%d.pth")
      end.
Proof.
  intros Hn Hbatches Heval. unfold train_and_validate.
  destruct (Z.eqb_spec num_epoch 0) as [?|_]; [lia|].
  destruct (range_blocks num_epoch Hn) as (count & -> & Hcount & Hlast).
  destruct (ceil_div10_bounds num_epoch Hn) as [Hstep _].
  cbn [rbind].
  destruct (foldM_block_never_better train_batches evaluate num_epoch Hbatches
              (ceil_div10 num_epoch)
              ((λ k : nat, 0 + Z.of_nat k * ceil_div10 num_epoch) <$> seq 0 count)
              (loop_init m0 dir0) Heval eq_refl) as (st & -> & _ & Hbe & Hdir).
  cbn [rbind]. rewrite Hbe. cbn [loop_init best_epoch model output_dir] in *.
  exists (output_dir st). rewrite Hdir at 1.
  rewrite foldl_insert_other; [done|].
  rewrite checkpoints_epochs, <- list_fmap_compose.
  intros (k & Hk & _)%list_elem_of_fmap. simpl in Hk. lia.
Qed.

Lemma run_without_improvement_loads_epoch_minus_one_witness :
  ∃ dir : gmap Z Z,
    train_and_validate (λ m _, (m + 1, 1%nat)) (λ _, Ok NaN) 3 0 ∅
    = match (∅ : gmap Z Z) !! (-1) with
      | Some state => Ok (state, dir)
      | None => Err (FileNotFoundError "model_epoch_%d.pth")
      end.
Proof.
  apply (run_without_improvement_loads_epoch_minus_one
           (λ m _, (m + 1, 1%nat)) (λ _, Ok NaN) 3 0 ∅).
  - lia.
  - intros m epoch. simpl. lia.
  - intros m. by left.
Defined.

(** ** The checkpoints a run leaves *)

(** X15.  A run of [num_epoch > 0] epochs writes between one and ten
    checkpoints, under pairwise distinct names between 1 and [num_epoch];
    the last is [model_epoch_<num_epoch>.pth] and holds the state after the
    epochs [0, ..., num_epoch - 1], each trained once, in this order.  The
    directory gains these files and no other, and every other file keeps its
    content. *)
Theorem run_leaves_at_most_ten_checkpoints {model_state : Type}
    (train_batches : model_state → Z → model_state * nat)
    (evaluate : model_state → result tfloat)
    (num_epoch : Z) (m0 : model_state) (dir0 : gmap Z model_state) :
  0 < num_epoch →
  (∀ m epoch, (train_batches m epoch).2 ≠ 0%nat) →
  (∀ m, ∃ q, evaluate m = Ok (Fin q)) →
  ∃ (m : model_state) (dir : gmap Z model_state) (names : list Z),
    train_and_validate train_batches evaluate num_epoch m0 dir0 = Ok (m, dir)
    ∧ (1 ≤ length names ≤ 10)%nat
    ∧ NoDup names
    ∧ Forall (λ e, 1 ≤ e ≤ num_epoch) names
    ∧ last names = Some num_epoch
    ∧ dom dir = dom dir0 ∪ list_to_set names
    ∧ (∀ k, k ∉ names → dir !! k = dir0 !! k)
    ∧ dir !! num_epoch
      = Some (foldl (λ m epoch, (train_batches m epoch).1) m0 (py_range2 0 num_epoch)).
Proof.
  intros Hn Hbatches Hfin.
  destruct (train_and_validate_run train_batches evaluate num_epoch Hbatches Hfin
              m0 dir0 Hn) as (blocks & b & e & m & q & Hblocks & _ & _ & Hrun & _).
  destruct (range_blocks num_epoch Hn) as (count & Hseq & Hcount & Hlast).
  destruct (block_epochs_NoDup num_epoch blocks Hn Hblocks) as [_ Hnd].
  destruct (ceil_div10_bounds num_epoch Hn) as [Hstep _].
  rewrite Hblocks in Hseq. injection Hseq as ->.
  set (step := ceil_div10 num_epoch) in *.
  set (blocks := (λ k : nat, 0 + Z.of_nat k * step) <$> seq 0 count) in *.
  set (cps := checkpoints train_batches num_epoch step m0 blocks) in *.
  assert (cps.*1 = (λ i, Z.min num_epoch (i + step)) <$> blocks) as Hnames
    by apply checkpoints_epochs.
  assert (last cps
          = Some (num_epoch,
                  foldl (λ m epoch, (train_batches m epoch).1) m0
                    (py_range2 0 num_epoch))) as Hfull.
  { subst cps blocks. destruct count as [|c]; [lia|].
    rewrite checkpoints_last by lia.
    replace (Z.min num_epoch ((Z.of_nat 0 + Z.of_nat c + 1) * step)) with num_epoch by lia.
    by replace (Z.of_nat 0 * step) with 0 by lia. }
  exists m, (foldl (λ d c, <[c.1 := c.2]> d) dir0 cps), cps.*1.
  split; [done|]. split; [|split; [|split; [|split; [|split; [|split]]]]].
  - rewrite Hnames. subst blocks. by rewrite !length_fmap, length_seq.
  - by rewrite Hnames.
  - rewrite Hnames. subst blocks. rewrite <- list_fmap_compose.
    apply Forall_fmap, Forall_forall. intros k Hk%elem_of_seq. simpl. nia.
  - by rewrite fmap_last, Hfull.
  - apply foldl_insert_dom.
  - intros k Hk. by apply foldl_insert_other.
  - rewrite last_lookup in Hfull.
    apply (saved_not_overwritten cps dir0 (pred (length cps))); [|done].
    by rewrite Hnames.
Qed.

Lemma run_leaves_at_most_ten_checkpoints_witness :
  ∃ (m : Z) (dir : gmap Z Z) (names : list Z),
    train_and_validate (λ m _, (m + 1, 1%nat)) demo_evaluate 25 0 ∅ = Ok (m, dir)
    ∧ (1 ≤ length names ≤ 10)%nat
    ∧ NoDup names
    ∧ Forall (λ e, 1 ≤ e ≤ 25) names
    ∧ last names = Some 25
    ∧ dom dir = dom (∅ : gmap Z Z) ∪ list_to_set names
    ∧ (∀ k, k ∉ names → dir !! k = (∅ : gmap Z Z) !! k)
    ∧ dir !! 25
      = Some (foldl (λ m epoch, ((λ m (_ : Z), (m + 1, 1%nat)) m epoch).1) 0
                (py_range2 0 25)).
Proof.
  apply (run_leaves_at_most_ten_checkpoints (λ m _, (m + 1, 1%nat)) demo_evaluate 25 0 ∅).
  - lia.
  - intros m epoch. simpl. lia.
  - intros m. eexists. reflexivity.
Defined.

(** ** The evaluation that ends [main] *)

(** X16.  [main] starts from the checkpoint of the configuration when there
    is one, from the fresh model otherwise, and its last evaluation is on
    the state [train_and_validate] loaded: the value it computes is the
    score of one of the run's checkpoints and no checkpoint of the run
    scores higher. *)
Theorem main_evaluates_best_checkpoint {model_state : Type}
    (train_batches : model_state → Z → model_state * nat)
    (evaluate : model_state → result tfloat)
    (num_epoch : Z) (fresh : model_state) (checkpoint : option model_state)
    (dir0 : gmap Z model_state) :
  0 < num_epoch →
  (∀ m epoch, (train_batches m epoch).2 ≠ 0%nat) →
  (∀ m, ∃ q, evaluate m = Ok (Fin q)) →
  ∃ (blocks : list Z) (b : nat) (e : Z) (m : model_state) (q : Qc)
    (dir : gmap Z model_state),
    py_range3 0 num_epoch (ceil_div10 num_epoch) = Ok blocks
    ∧ checkpoints train_batches num_epoch (ceil_div10 num_epoch)
        (default fresh checkpoint) blocks !! b = Some (e, m)
    ∧ evaluate m = Ok (Fin q)
    ∧ main train_batches evaluate num_epoch fresh checkpoint dir0 = Ok (Fin q, dir)
    ∧ ∀ (j : nat) (e' : Z) (m' : model_state) (q' : Qc),
        checkpoints train_batches num_epoch (ceil_div10 num_epoch)
          (default fresh checkpoint) blocks !! j = Some (e', m') →
        evaluate m' = Ok (Fin q') → (q' <= q)%Qc.
Proof.
  intros Hn Hbatches Hfin.
  assert (initial_model fresh checkpoint = default fresh checkpoint) as Hinit
    by (by destruct checkpoint).
  destruct (train_and_validate_run train_batches evaluate num_epoch Hbatches Hfin
              (default fresh checkpoint) dir0 Hn)
    as (blocks & b & e & m & q & Hblocks & Hb & Hq & Hrun & Hbest).
  exists blocks, b, e, m, q. eexists.
  split; [done|]. split; [done|]. split; [done|]. split; [|done].
  unfold main. rewrite Hinit, Hrun. cbn [rbind fst snd]. by rewrite Hq.
Qed.

Lemma main_evaluates_best_checkpoint_witness :
  ∃ (blocks : list Z) (b : nat) (e : Z) (m : Z) (q : Qc) (dir : gmap Z Z),
    py_range3 0 3 (ceil_div10 3) = Ok blocks
    ∧ checkpoints (λ m _, (m + 1, 1%nat)) 3 (ceil_div10 3)
        (default 7 (Some 0)) blocks !! b = Some (e, m)
    ∧ demo_evaluate m = Ok (Fin q)
    ∧ main (λ m _, (m + 1, 1%nat)) demo_evaluate 3 7 (Some 0) ∅ = Ok (Fin q, dir)
    ∧ ∀ (j : nat) (e' : Z) (m' : Z) (q' : Qc),
        checkpoints (λ m _, (m + 1, 1%nat)) 3 (ceil_div10 3)
          (default 7 (Some 0)) blocks !! j = Some (e', m') →
        demo_evaluate m' = Ok (Fin q') → (q' <= q)%Qc.
Proof.
  apply (main_evaluates_best_checkpoint (λ m _, (m + 1, 1%nat)) demo_evaluate 3 7 (Some 0) ∅).
  - lia.
  - intros m epoch. simpl. lia.
  - intros m. eexists. reflexivity.
Defined.

(** * Further properties of the mini-batch loss *)

(** ** Sums of reals *)

Lemma Rsum_cons (x : R) (l : list R) : Rsum (x :: l) = (x + Rsum l)%R.
Proof. done. Qed.

Lemma Rsum_scale {A : Type} (f : A → R) (c : R) (l : list A) :
  Rsum ((λ x, f x / c)%R <$> l) = (Rsum (f <$> l) / c)%R.
Proof.
  induction l as [|x l IH].
  - unfold Rsum, Rdiv. simpl. ring.
  - rewrite !fmap_cons, !Rsum_cons, IH. unfold Rdiv. ring.
Qed.

Lemma Rsum_const {A : Type} (c : R) (l : list A) :
  Rsum ((λ _, c) <$> l) = (INR (length l) * c)%R.
Proof.
  induction l as [|x l IH].
  - unfold Rsum. simpl. ring.
  - rewrite fmap_cons, Rsum_cons, IH, length_cons, S_INR. ring.
Qed.

Lemma Rsum_nonneg (l : list R) : Forall (λ x, 0 <= x)%R l → (0 <= Rsum l)%R.
Proof.
  induction 1 as [|x l Hx _ IH].
  - unfold Rsum. simpl. lra.
  - rewrite Rsum_cons. lra.
Qed.

Lemma Rsum_exp_pos (xs : list R) : xs ≠ [] → (0 < Rsum (exp <$> xs))%R.
Proof.
  destruct xs as [|x xs]; [done|]. intros _.
  rewrite fmap_cons, Rsum_cons.
  pose proof (exp_pos x).
  assert (0 <= Rsum (exp <$> xs))%R; [|lra].
  apply Rsum_nonneg, Forall_fmap, Forall_forall. intros y _. simpl.
  apply Rlt_le, exp_pos.
Qed.

(** ** [F.softmax] *)

Lemma softmax_total (xs : list R) : xs ≠ [] → Rsum (softmax xs) = 1%R.
Proof.
  intros Hne. unfold softmax. rewrite Rsum_scale.
  pose proof (Rsum_exp_pos xs Hne). by field_simplify_eq; [|lra].
Qed.

Lemma softmax_nonneg (xs : list R) : Forall (λ x, 0 <= x)%R (softmax xs).
Proof.
  destruct (decide (xs = [])) as [->|Hne]; [constructor|].
  pose proof (Rsum_exp_pos xs Hne) as Hpos.
  unfold softmax. apply Forall_fmap, Forall_forall. intros x _. simpl.
  apply Rlt_le, Rdiv_lt_0_compat; [apply exp_pos | done].
Qed.

(** ** The weights of a row *)

(** X17.  The weights line 108 divides by add up to 2 on every row with a
    negative column when the temperature is positive: one for the positive
    column, one for the softmax over the negatives.  In the uniform branch
    they add up to [1 + n/N] for a row of [n] negative columns, which is 2
    when [cfg.task.num_negative] is the number of negatives of the row. *)
Theorem row_weights_total (temperature : R) (N : Z) (pred : list (list R)) :
  Forall (λ row, (2 ≤ length row)%nat) pred →
  (0 < temperature)%R ∨ N ≠ 0 →
  ∃ neg_weight : list (list R),
    neg_weight_of temperature N pred = Ok neg_weight
    ∧ Forall2 (λ row w,
         length w = length row
         ∧ Rsum w = (if Rlt_dec 0 temperature then 2
                     else 1 + INR (length row - 1) / IZR N)%R)
        pred neg_weight.
Proof.
  intros Hwide HN.
  assert (Forall (λ row : list R, row ≠ []) pred) as Hne.
  { eapply Forall_impl; [exact Hwide|]. intros row Hrow ->. simpl in Hrow. lia. }
  rewrite neg_weight_of_rows by done. eexists. split; [done|].
  apply Forall2_fmap_r, Forall2_same_length_lookup_2; [done|].
  intros i row row' Hi Hi'. rewrite Hi in Hi'. injection Hi' as <-.
  eapply Forall_lookup_1 in Hwide; [|exact Hi].
  destruct row as [|x [|y xs]]; [simpl in Hwide; lia..|].
  unfold row_weights. destruct (Rlt_dec 0 temperature) as [HT|HT].
  - split.
    + unfold softmax. by rewrite !length_cons, !length_fmap.
    + rewrite Rsum_cons, softmax_total by done. lra.
  - split.
    + by rewrite !length_cons, !length_fmap.
    + rewrite Rsum_cons, Rsum_const. cbn [drop length].
      rewrite Nat.sub_succ, Nat.sub_0_r. unfold Rdiv. ring.
Qed.

Lemma row_weights_total_witness :
  ∃ neg_weight : list (list R),
    neg_weight_of 1 0 [[1; 2; 3]; [0; 1; 1]]%R = Ok neg_weight
    ∧ Forall2 (λ row w,
         length w = length row
         ∧ Rsum w = (if Rlt_dec 0 1 then 2
                     else 1 + INR (length row - 1) / IZR 0)%R)
        [[1; 2; 3]; [0; 1; 1]]%R neg_weight.
Proof.
  apply (row_weights_total 1 0 [[1; 2; 3]; [0; 1; 1]]%R).
  - repeat (apply Forall_cons; split); simpl; try lia. done.
  - left. lra.
Defined.

(** ** The sign of the loss *)

Lemma sigmoid_range (x : R) : (0 < sigmoid x < 1)%R.
Proof.
  unfold sigmoid. pose proof (exp_pos (- x)) as Hexp. split.
  - apply Rdiv_lt_0_compat; lra.
  - apply (Rmult_lt_reg_r (1 + exp (- x))); [lra|].
    unfold Rdiv. rewrite Rmult_assoc, Rinv_l by lra. lra.
Qed.

Lemma ln_unit_interval (x : R) : (0 < x < 1)%R → (ln x < 0)%R.
Proof. intros [H0 H1]. rewrite <- ln_1. by apply ln_increasing. Qed.

Lemma bce_nonneg (x y : R) : y = 0%R ∨ y = 1%R → (0 <= bce_with_logits x y)%R.
Proof.
  pose proof (sigmoid_range x) as Hs.
  pose proof (ln_unit_interval (sigmoid x) Hs).
  pose proof (ln_unit_interval (1 - sigmoid x) ltac:(lra)).
  unfold bce_with_logits. intros [-> | ->]; lra.
Qed.

Lemma Forall_zip_with_both {A B C : Type} (P : A → Prop) (Q : B → Prop) (T : C → Prop)
    (f : A → B → C) (l : list A) (k : list B) :
  (∀ a b, P a → Q b → T (f a b)) →
  Forall P l → Forall Q k → Forall T (zip_with f l k).
Proof.
  intros Hf Hl. revert k. induction Hl as [|a l Ha _ IH]; intros k Hk; [constructor|].
  destruct Hk as [|b k Hb Hk]; [constructor|].
  cbn [zip_with]. constructor; [by apply Hf | by apply IH].
Qed.

Lemma row_weights_nonneg (temperature : R) (N : Z) (row : list R) :
  (0 < temperature)%R ∨ 0 < N →
  Forall (λ w, 0 <= w)%R (row_weights temperature N row)
  ∧ (1 <= Rsum (row_weights temperature N row))%R.
Proof.
  intros HN.
  assert (∀ ws, Forall (λ w, 0 <= w)%R ws
                → Forall (λ w, 0 <= w)%R (1 :: ws) ∧ (1 <= Rsum (1 :: ws))%R)%R
    as Hcons.
  { intros ws Hws. split; [constructor; [lra|done]|].
    rewrite Rsum_cons. pose proof (Rsum_nonneg ws Hws). lra. }
  unfold row_weights. destruct (Rlt_dec 0 temperature) as [HT|HT].
  - apply Hcons, softmax_nonneg.
  - destruct HN as [?|HN]; [done|]. apply Hcons, Forall_fmap, Forall_forall.
    intros y _. simpl. apply Rlt_le, Rdiv_lt_0_compat; [lra|].
    by apply IZR_lt.
Qed.

(** The loss of a mini-batch, row by row. *)
Lemma batch_loss_rows (temperature : R) (N : Z) (pred : list (list R)) :
  Forall (λ row, row ≠ []) pred →
  (0 < temperature)%R ∨ N ≠ 0 →
  batch_loss temperature N pred
  = Ok (Rsum ((λ row,
                 Rsum (zip_with Rmult
                         (zip_with bce_with_logits row
                            (1%R :: ((λ _, 0%R) <$> drop 1 row)))
                         (row_weights temperature N row))
                 / Rsum (row_weights temperature N row))%R <$> pred)
        / INR (length pred))%R.
Proof.
  intros Hne HN. unfold batch_loss, row_losses.
  rewrite target_of_rows, neg_weight_of_rows by done. cbn [rbind].
  rewrite (zip_with_fmap_r (zip_with bce_with_logits)), zip_with_diag.
  rewrite zip_with_fmap_l, zip_with_fmap_r, zip_with_diag.
  by rewrite length_fmap.
Qed.

(** X18.  With a positive temperature, or with a positive
    [cfg.task.num_negative] in the uniform branch, the loss of a non-empty
    mini-batch whose rows have the positive column is computed without an
    error and is not negative. *)
Theorem batch_loss_nonnegative (temperature : R) (N : Z) (pred : list (list R)) :
  pred ≠ [] →
  Forall (λ row, row ≠ []) pred →
  (0 < temperature)%R ∨ 0 < N →
  ∃ loss : R, batch_loss temperature N pred = Ok loss ∧ (0 <= loss)%R.
Proof.
  intros Hpred Hne HN.
  assert ((0 < temperature)%R ∨ N ≠ 0) as HN' by (destruct HN; [by left | right; lia]).
  rewrite batch_loss_rows by done.
  eexists. split; [done|].
  apply Rmult_le_pos.
  - apply Rsum_nonneg, Forall_fmap, Forall_forall. intros row _. simpl.
    destruct (row_weights_nonneg temperature N row HN) as [Hw Hsum].
    apply Rmult_le_pos; [|apply Rlt_le, Rinv_0_lt_compat; lra].
    apply Rsum_nonneg.
    apply (Forall_zip_with_both (λ l, 0 <= l)%R (λ w, 0 <= w)%R); [|  |done].
    + intros a b Ha Hb. by apply Rmult_le_pos.
    + apply (Forall_zip_with_both (λ _, True) (λ y, y = 0%R ∨ y = 1%R)).
      * intros a b _ Hb. by apply bce_nonneg.
      * apply Forall_forall. done.
      * constructor; [by right|]. apply Forall_fmap, Forall_forall. by left.
  - apply Rlt_le, Rinv_0_lt_compat, lt_0_INR.
    destruct pred; [done|]. simpl. lia.
Qed.

Lemma batch_loss_nonnegative_witness :
  ∃ loss : R, batch_loss 0 2 [[1; 2; 3]; [0; 1; 1]]%R = Ok loss ∧ (0 <= loss)%R.
Proof.
  apply (batch_loss_nonnegative 0 2 [[1; 2; 3]; [0; 1; 1]]%R).
  - discriminate.
  - repeat (apply Forall_cons; split); done.
  - right. lia.
Defined.

(** ** Mini-batches the loss refuses *)

Lemma target_of_empty_row (pred : list (list R)) :
  [] ∈ pred →
  target_of pred
  = Err (IndexError "index 0 is out of bounds for dimension 1 with size 0").
Proof.
  unfold target_of.
  induction pred as [|row pred IH]; intros Hin; [by apply elem_of_nil in Hin|].
  rewrite !fmap_cons. cbn [sequence_result].
  destruct row as [|x xs]; [done|].
  apply elem_of_cons in Hin as [?|Hin]; [done|].
  rewrite fmap_cons. cbn [set_col0 rbind]. by rewrite IH.
Qed.

(** X19.  The loss raises in two cases.  A mini-batch with a row without
    columns fails at the assignment of line 96 with an [IndexError].  A
    mini-batch whose rows have the positive column fails at line 107 with a
    [ZeroDivisionError] when the temperature is not positive and
    [cfg.task.num_negative] is zero. *)
Theorem batch_loss_errors (temperature : R) (pred : list (list R)) :
  (∀ N : Z, [] ∈ pred →
     batch_loss temperature N pred
     = Err (IndexError "index 0 is out of bounds for dimension 1 with size 0"))
  ∧ (Forall (λ row, row ≠ []) pred → ¬ (0 < temperature)%R →
     batch_loss temperature 0 pred = Err (ZeroDivisionError "division by zero")).
Proof.
  split.
  - intros N Hin. unfold batch_loss, row_losses.
    by rewrite target_of_empty_row.
  - intros Hne HT. unfold batch_loss, row_losses.
    rewrite target_of_rows by done. cbn [rbind]. unfold neg_weight_of.
    by destruct (Rlt_dec 0 temperature).
Qed.

Lemma batch_loss_errors_witness :
  batch_loss 0 0 [[1; 2; 3]; [0; 1; 1]]%R = Err (ZeroDivisionError "division by zero").
Proof.
  destruct (batch_loss_errors 0 [[1; 2; 3]; [0; 1; 1]]%R) as [_ H].
  apply H.
  - repeat (apply Forall_cons; split); done.
  - lra.
Defined.

(** * Further properties of the unbiased estimator *)

(** ** Rationals as reals *)









Lemma Q2R_Qc_zero : Q2R (Q2Qc 0) = 0%R.
Proof. unfold Q2R. simpl. lra. Qed.





(** ** Sums of rationals *)








(** ** The score of one query *)









(** * Further properties of the mini-batch loop *)

Lemma py_range2_cons (a b : Z) : a < b → py_range2 a b = a :: py_range2 (a + 1) b.
Proof.
  intros Hab. unfold py_range2.
  replace (Z.to_nat (b - a)) with (S (Z.to_nat (b - (a + 1)))) by lia.
  cbn [seq]. rewrite fmap_cons. f_equal; [lia|].
  rewrite <- fmap_S_seq, <- list_fmap_compose. apply list_fmap_ext.
  intros i k _. simpl. lia.
Qed.

Section EpochBatchesFacts.
Context {model_state batch : Type}.
Variable update : model_state → batch → model_state * tfloat.
Variable rank : nat.
Variable log_interval : Z.

(** The loop over the mini-batches, when the logging test raises nothing. *)
Lemma foldM_batch_pass (batches : list batch) (st : epoch_state) :
  rank ≠ 0%nat ∨ log_interval ≠ 0 →
  ∃ st' : epoch_state,
    foldM (batch_pass update rank log_interval) batches st = Ok st'
    ∧ params st' = foldl (λ m b, (update m b).1) (params st) batches
    ∧ length (losses st') = (length (losses st) + length batches)%nat
    ∧ batch_id st' = batch_id st + Z.of_nat (length batches)
    ∧ (loss_log st').*1
      = (loss_log st).*1
        ++ (if decide (rank = 0%nat)
            then filter (λ i, i mod log_interval = 0)
                   (py_range2 (batch_id st) (batch_id st + Z.of_nat (length batches)))
            else []).
Proof.
  intros Hlog. revert st. induction batches as [|b batches IH]; intros st.
  - exists st. split; [done|]. split; [done|]. split; [simpl; lia|].
    split; [simpl; lia|]. rewrite py_range2_empty by (simpl; lia).
    rewrite filter_nil. destruct (decide (rank = 0%nat)); by rewrite app_nil_r.
  - cbn [foldM]. unfold batch_pass at 1.
    destruct (decide (rank = 0%nat)) as [Hr|Hr].
    + destruct Hlog as [?|Hlog]; [done|].
      destruct (Z.eqb_spec log_interval 0) as [?|_]; [done|]. cbn [rbind].
      match goal with
      | |- ∃ st', foldM _ _ ?s = _ ∧ _ => destruct (IH s) as (st' & H1 & H2 & H3 & H4 & H5)
      end.
      cbn [params losses batch_id loss_log] in H2, H3, H4, H5.
      exists st'. split; [done|]. split; [done|].
      split; [rewrite H3, length_app; simpl; lia|].
      split; [rewrite H4; simpl; lia|].
      rewrite H5. cbn [length]. rewrite (py_range2_cons (batch_id st)) by lia.
      replace (batch_id st + 1 + Z.of_nat (length batches))
        with (batch_id st + Z.of_nat (S (length batches))) by lia.
      rewrite filter_cons.
      destruct (Z.eqb_spec (batch_id st mod log_interval) 0) as [Hdiv|Hdiv].
      * rewrite decide_True by done. by rewrite fmap_app, <- app_assoc.
      * by rewrite decide_False by done.
    + cbn [rbind].
      match goal with
      | |- ∃ st', foldM _ _ ?s = _ ∧ _ => destruct (IH s) as (st' & H1 & H2 & H3 & H4 & H5)
      end.
      cbn [params losses batch_id loss_log] in H2, H3, H4, H5.
      exists st'. split; [done|]. split; [done|].
      split; [rewrite H3, length_app; simpl; lia|].
      split; [rewrite H4; simpl; lia|]. done.
Qed.
End EpochBatchesFacts.

(** X21.  An epoch goes through the first [batch_per_epoch] mini-batches of
    its loader, through all of them when [batch_per_epoch] is [None], zero
    or larger than the loader.  Unless the logging test raises, the
    parameters are updated once per mini-batch in the loader's order, one
    loss is collected per mini-batch and the counter [batch_id] advances by
    their number; rank 0 logs the loss of exactly the mini-batches whose
    counter is a multiple of [cfg.train.log_interval], the other ranks
    log none. *)
Theorem epoch_goes_through_its_batches {model_state batch : Type}
    (update : model_state → batch → model_state * tfloat)
    (rank : nat) (log_interval : Z)
    (batch_per_epoch : option Z) (loader : list batch) (m : model_state) (id0 : Z) :
  rank ≠ 0%nat ∨ log_interval ≠ 0 →
  loader ≠ [] →
  match batch_per_epoch with Some n => 0 ≤ n < 2 ^ 63 | None => True end →
  Z.of_nat (length loader) < 2 ^ 63 →
  ∃ (n : nat) (st : epoch_state) (avg_loss : option tfloat),
    n = (match batch_per_epoch with
         | Some (Zpos k) => Nat.min (Pos.to_nat k) (length loader)
         | _ => length loader
         end)
    ∧ run_epoch update rank log_interval batch_per_epoch loader m id0 = Ok (st, avg_loss)
    ∧ params st = foldl (λ m b, (update m b).1) m (take n loader)
    ∧ length (losses st) = n
    ∧ batch_id st = id0 + Z.of_nat n
    ∧ (loss_log st).*1
      = (if decide (rank = 0%nat)
         then filter (λ i, i mod log_interval = 0) (py_range2 id0 (id0 + Z.of_nat n))
         else [])
    ∧ (avg_loss = None ↔ rank ≠ 0%nat).
Proof.
  intros Hlog Hne Hbpe Hlen.
  set (n := match batch_per_epoch with
            | Some (Zpos k) => Nat.min (Pos.to_nat k) (length loader)
            | _ => length loader
            end).
  assert (∃ stop, batches_per_epoch batch_per_epoch (length loader) = stop
                  ∧ 0 ≤ stop < 2 ^ 63
                  ∧ take (Z.to_nat stop) loader = take n loader
                  ∧ (1 ≤ n ≤ length loader)%nat) as (stop & Hstop & Hrange & Htake & Hn).
  { assert (1 ≤ length loader)%nat by (destruct loader; [done|simpl; lia]).
    unfold batches_per_epoch. subst n.
    destruct batch_per_epoch as [[|k|k]|]; cbn [Z.eqb].
    - eexists. split; [done|]. split; [simpl; lia|]. split; [|lia].
      by rewrite Nat2Z.id.
    - eexists. split; [done|]. split; [lia|]. split; [|lia].
      rewrite Z2Nat.inj_pos.
      destruct (decide (Pos.to_nat k ≤ length loader)%nat) as [Hk|Hk].
      + by rewrite Nat.min_l.
      + rewrite Nat.min_r by lia. by rewrite !take_ge by lia.
    - lia.
    - eexists. split; [done|]. split; [lia|]. split; [|lia].
      by rewrite Nat2Z.id. }
  unfold run_epoch. rewrite Hstop. unfold islice.
  destruct (Z.ltb_spec stop 0) as [?|_]; [lia|].
  destruct (Z.ltb_spec (2 ^ 63 - 1) stop) as [?|_]; [lia|].
  cbn [orb rbind]. rewrite Htake.
  destruct (foldM_batch_pass update rank log_interval (take n loader)
              {| params := m; losses := []; batch_id := id0; loss_log := [] |} Hlog)
    as (st & Hrun & Hparams & Hlosses & Hid & Hlogged).
  cbn [params losses batch_id loss_log length fmap list_fmap app] in *.
  rewrite length_take, Nat.min_l in Hlosses, Hid, Hlogged by lia.
  rewrite Hrun. cbn [rbind].
  destruct (decide (rank = 0%nat)) as [Hr|Hr].
  - destruct (losses st) as [|loss rest] eqn:Hl; [simpl in Hlosses; lia|].
    cbn [rbind]. exists n, st. eexists.
    split; [done|]. split; [done|]. split; [done|].
    split; [by rewrite Hl|]. split; [done|]. split; [done|].
    split; [discriminate|done].
  - cbn [rbind]. exists n, st, None.
    split; [done|]. split; [done|]. split; [done|].
    split; [done|]. split; [done|]. split; [done|]. done.
Qed.

Lemma epoch_goes_through_its_batches_witness :
  ∃ (n : nat) (st : epoch_state) (avg_loss : option tfloat),
    n = Nat.min (Pos.to_nat 2) (length [10; 20; 30])
    ∧ run_epoch (λ (m b : Z), (m + b, Fin (Qc_of_Z b))) 0 2 (Some 2) [10; 20; 30] 0 4
      = Ok (st, avg_loss)
    ∧ params st = foldl (λ m b, ((λ (m b : Z), (m + b, Fin (Qc_of_Z b))) m b).1) 0
                    (take n [10; 20; 30])
    ∧ length (losses st) = n
    ∧ batch_id st = 4 + Z.of_nat n
    ∧ (loss_log st).*1
      = (if decide (0%nat = 0%nat)
         then filter (λ i, i mod 2 = 0) (py_range2 4 (4 + Z.of_nat n))
         else [])
    ∧ (avg_loss = None ↔ 0%nat ≠ 0%nat).
Proof.
  apply (epoch_goes_through_its_batches (λ (m b : Z), (m + b, Fin (Qc_of_Z b)))
           0 2 (Some 2) [10; 20; 30] 0 4).
  - right. lia.
  - discriminate.
  - lia.
  - simpl. lia.
Defined.



